(** * icd: icon downloader -- a shallow embedding of [IconInput] and [utils]

    The development follows the TypeScript sources: [santizeFilename] and
    [logError] of [utils.ts], and the class [IconInput] of [IconInput.ts]
    ([buildUrl], [grabSvgText], [transform], [processSvgForReact],
    [saveToFile], [download]).

    Strings.  A JavaScript string is a sequence of UTF-16 code units.  The
    model keeps the code units below 256: a [string] of Rocq is read as a
    sequence of code units U+0000 .. U+00FF, one [ascii] each.  Within that
    range [toLowerCase], the white space class of regular expressions and
    [trim] are modelled exactly.  What holds of [toLowerCase] in that range
    only, such as one code unit giving one code unit, is not stated of the
    program (the small letter of U+0130 has two code units).

    Numbers.  A size is kept when it is a safe integer, below 2^53 in
    absolute value: there [toString] prints the plain decimal.

    The file system.  [mkdir] and [writeFile] are modelled for the calls
    that resolve; a call that rejects (a name too long, no permission) is
    not described, and the statements on [saveToFile] and [download] that
    speak of what is on disk are about runs in which the calls resolved. *)

From Stdlib Require Import ZArith Lia Bool Ascii String DecimalString.
From stdpp Require Import base gmap strings.

Open Scope string_scope.

(* ===================================================================== *)
(** ** Characters *)

Definition code (c : ascii) : nat := nat_of_ascii c.

Definition inRange (lo hi : nat) (c : ascii) : bool :=
  Nat.leb lo (code c) && Nat.leb (code c) hi.

(** [String.prototype.toLowerCase] on one code unit below 256: the letters
    A-Z, and the Latin-1 capitals U+00C0 .. U+00DE except the multiplication
    sign U+00D7, move up by 32; every other code unit is kept. *)
Definition toLowerCaseChar (c : ascii) : ascii :=
  if inRange 65 90 c || (inRange 192 222 c && negb (Nat.eqb (code c) 215))
  then ascii_of_nat (code c + 32)
  else c.

(** The class [\s] of a regular expression, which is also what [trim]
    strips: TAB, LF, VT, FF, CR, SPACE and NO-BREAK SPACE. *)
Definition isWhiteSpace (c : ascii) : bool :=
  inRange 9 13 c || Nat.eqb (code c) 32 || Nat.eqb (code c) 160.

(** The class [[a-z0-9-]]. *)
Definition isFilenameChar (c : ascii) : bool :=
  inRange 97 122 c || inRange 48 57 c || Nat.eqb (code c) 45.

(** The double quote, code unit 34. *)
Definition dquote : ascii := ascii_of_nat 34.
Definition DQ : string := String dquote EmptyString.

(* ===================================================================== *)
(** ** String primitives of the JavaScript runtime *)

(** [s.slice(n)] *)
Fixpoint sliceFrom (n : nat) (s : string) : string :=
  match n, s with
  | S k, String _ s' => sliceFrom k s'
  | _, _ => s
  end.

(** [s.slice(0, n)] *)
Fixpoint sliceTo (n : nat) (s : string) : string :=
  match n, s with
  | S k, String c s' => String c (sliceTo k s')
  | _, _ => EmptyString
  end.

(** [s.startsWith(p)] *)
Fixpoint startsWith (s p : string) {struct p} : bool :=
  match p, s with
  | EmptyString, _ => true
  | String a p', String b s' => Ascii.eqb a b && startsWith s' p'
  | String _ _, EmptyString => false
  end.

(** [s.includes(p)] *)
Fixpoint includes (s p : string) : bool :=
  startsWith s p ||
  match s with
  | EmptyString => false
  | String _ s' => includes s' p
  end.

(** [s.indexOf(p)], [None] standing for -1. *)
Fixpoint indexOf (s p : string) : option nat :=
  if startsWith s p then Some 0
  else match s with
       | EmptyString => None
       | String _ s' => option_map S (indexOf s' p)
       end.

(** [s.toLowerCase()] *)
Fixpoint toLowerCase (s : string) : string :=
  match s with
  | EmptyString => EmptyString
  | String c s' => String (toLowerCaseChar c) (toLowerCase s')
  end.

(** Every code unit of [s] satisfies [P]. *)
Fixpoint allChars (P : ascii -> bool) (s : string) : bool :=
  match s with
  | EmptyString => true
  | String c s' => P c && allChars P s'
  end.

(** [s.trimStart()], [s.trimEnd()] and [s.trim()]. *)
Fixpoint trimStart (s : string) : string :=
  match s with
  | EmptyString => EmptyString
  | String c s' => if isWhiteSpace c then trimStart s' else s
  end.

Fixpoint trimEnd (s : string) : string :=
  match s with
  | EmptyString => EmptyString
  | String c s' =>
      match trimEnd s' with
      | EmptyString => if isWhiteSpace c then EmptyString else String c EmptyString
      | t => String c t
      end
  end.

Definition trim (s : string) : string := trimEnd (trimStart s).

(** Truthiness of an optional string: [undefined] and the empty string are
    falsy, every other string is truthy. *)
Definition truthy (o : option string) : bool :=
  match o with
  | None => false
  | Some EmptyString => false
  | Some (String _ _) => true
  end.

(** [o || d] on an optional string. *)
Definition orElse (o : option string) (d : string) : string :=
  match o with
  | Some (String c s) => String c s
  | _ => d
  end.

(* ===================================================================== *)
(** ** Replacement *)

(** [GetSubstitution] of ECMAScript for a search that has no capture: in the
    replacement text, [$$] stands for a dollar sign, [$&] for the matched
    text, [$`] for the text before the match and [$'] for the text after it;
    any other dollar sign is kept as it is. *)
Fixpoint getSubstitution (matched before after template : string) : string :=
  match template with
  | EmptyString => EmptyString
  | String c t =>
      if Ascii.eqb c "$" then
        match t with
        | EmptyString => String c EmptyString
        | String d t' =>
            if Ascii.eqb d "$" then String "$" (getSubstitution matched before after t')
            else if Ascii.eqb d "&" then matched ++ getSubstitution matched before after t'
            else if Ascii.eqb d "`" then before ++ getSubstitution matched before after t'
            else if Ascii.eqb d "'" then after ++ getSubstitution matched before after t'
            else String c (getSubstitution matched before after t)
        end
      else String c (getSubstitution matched before after t)
  end.

(** [s.replace(pattern, replacement)] with a string pattern: the first
    occurrence only. *)
Definition replace (s pattern replacement : string) : string :=
  match indexOf s pattern with
  | None => s
  | Some pos =>
      let preceding := sliceTo pos s in
      let following := sliceFrom (pos + String.length pattern) s in
      preceding ++ getSubstitution pattern preceding following replacement ++ following
  end.

(** A regular expression is modelled by its matcher: for the text that starts
    at the current position, the length of the match the engine finds there,
    or [None].  Every pattern of the program matches at least one code unit. *)
Definition matcher := string -> option nat.

(** [s.replace(/re/g, r)] for a replacement text [r] without dollar sign: the
    matches are found from left to right, each search resuming after the
    previous match; [skip] counts the code units of the current match that
    are still to be passed over. *)
Fixpoint replaceAllFrom (m : matcher) (r : string) (skip : nat) (s : string) : string :=
  match s with
  | EmptyString => EmptyString
  | String c s' =>
      match skip with
      | S k => replaceAllFrom m r k s'
      | O =>
          match m s with
          | Some n => r ++ replaceAllFrom m r (Nat.pred n) s'
          | None => String c (replaceAllFrom m r 0 s')
          end
      end
  end.

Definition replaceAll (m : matcher) (r : string) (s : string) : string :=
  replaceAllFrom m r 0 s.

(** [s.replace(/re/, f)] without the [g] flag: the leftmost match only; [f]
    builds the replacement from the matched text. *)
Fixpoint replaceFirst (m : matcher) (f : string -> string) (s : string) : string :=
  match m s with
  | Some n => f (sliceTo n s) ++ sliceFrom n s
  | None =>
      match s with
      | EmptyString => EmptyString
      | String c s' => String c (replaceFirst m f s')
      end
  end.

(** The matcher of a pattern without special character: the literal [p]. *)
Definition literal (p : string) : matcher :=
  fun s => if startsWith s p then Some (String.length p) else None.

(** Length of the longest prefix of [s] without the code unit [stop]. *)
Fixpoint runWithout (stop : ascii) (s : string) : nat :=
  match s with
  | EmptyString => 0
  | String c s' => if Ascii.eqb c stop then 0 else S (runWithout stop s')
  end.

(** The matcher of [opening[^stop]*closing], where [closing] starts with
    [stop]: after [opening] the star takes the longest run without [stop];
    giving back part of the run cannot help, since [closing] would then have
    to start on a code unit that is not [stop]. *)
Definition delimited (opening : string) (stop : ascii) (closing : string) : matcher :=
  fun s =>
    if startsWith s opening then
      let rest := sliceFrom (String.length opening) s in
      let run := runWithout stop rest in
      if startsWith (sliceFrom run rest) closing
      then Some (String.length opening + run + String.length closing)
      else None
    else None.

(** Length of the longest prefix of [s] made of white space. *)
Fixpoint whiteSpaceRun (s : string) : nat :=
  match s with
  | EmptyString => 0
  | String c s' => if isWhiteSpace c then S (whiteSpaceRun s') else 0
  end.

(** The matcher of [\s+]. *)
Definition whiteSpaces : matcher :=
  fun s => match whiteSpaceRun s with O => None | S n => Some (S n) end.

(** The matcher of [[^a-z0-9-]]. *)
Definition notFilenameChar : matcher :=
  fun s =>
    match s with
    | EmptyString => None
    | String c _ => if isFilenameChar c then None else Some 1
    end.

(* ===================================================================== *)
(** ** utils.ts *)

(** [santizeFilename]:
    [rawFilename.toLowerCase().replace(/\s+/g, '-').replace(/[^a-z0-9-]/g, '-')] *)
Definition santizeFilename (rawFilename : string) : string :=
  replaceAll notFilenameChar "-"
    (replaceAll whiteSpaces "-"
       (toLowerCase rawFilename)).

(** [logError] receives the icon, the method name and the error, and only
    prints the message of the error with [console.warn]; the model keeps the
    lines printed so far. *)
Definition logError (message : string) (warnings : list string) : list string :=
  (warnings ++ [message])%list.

(* ===================================================================== *)
(** ** types.ts: the data model *)

Module RepositoryConfig.
Record t := {
  name : string;
  owner : string;
  repo : string;
  branch : option string;
  pathTemplate : string;
  variantMap : option (list (string * string));
  demoUrl : option string
}.
End RepositoryConfig.

(** The fields of the class [IconInput].  [size] is a JavaScript number; the
    model keeps the safe integers (below 2^53 in absolute value), which
    [toString] prints in plain decimal.  Fractions, and the larger numbers,
    which [toString] prints rounded or with an exponent, have no counterpart:
    a statement that reads the text of a size assumes a safe integer. *)
Record IconInput := {
  output : string;
  name : string;
  filename : string;
  variant : option string;
  size : option Z;
  repository : RepositoryConfig.t;
  overwrite : bool;
  tsxTransform : bool;
  svgText : option string
}.

(** The assignment [this.svgText = text]. *)
Definition setSvgText (text : string) (this : IconInput) : IconInput :=
  {| output := output this; name := name this; filename := filename this;
     variant := variant this; size := size this; repository := repository this;
     overwrite := overwrite this; tsxTransform := tsxTransform this;
     svgText := Some text |}.

(** The constructor: the two flags default to [false] and [svgText] is left
    undefined. *)
Definition newIconInput (output name filename : string) (variant : option string)
    (size : option Z) (repository : RepositoryConfig.t)
    (overwrite tsxTransform : option bool) : IconInput :=
  {| output := output; name := name; filename := filename;
     variant := variant; size := size; repository := repository;
     overwrite := default false overwrite;
     tsxTransform := default false tsxTransform;
     svgText := None |}.

(** [n.toString()] on a safe integer: the plain decimal, with a minus sign
    for a negative number.  For an integer that is not safe the program
    prints something else (1e+21 for 10^21), which the function does not
    give: it is to be read on safe integers only. *)
Definition numberToString (n : Z) : string :=
  NilZero.string_of_int (Z.to_int n).

(* ===================================================================== *)
(** ** IconInput.ts: the pure methods *)

(** [buildUrl] *)
Definition buildUrl (this : IconInput) : string :=
  let baseUrl :=
    "https://raw.githubusercontent.com/" ++ RepositoryConfig.owner (repository this)
      ++ "/" ++ RepositoryConfig.repo (repository this)
      ++ "/" ++ orElse (RepositoryConfig.branch (repository this)) "main" in
  let path := RepositoryConfig.pathTemplate (repository this) in
  let path :=
    replace
      (replace
         (replace path "{variant}" (orElse (variant this) EmptyString))
         "{size}" (orElse (option_map numberToString (size this)) EmptyString))
      "{iconName}" (name this) in
  baseUrl ++ "/" ++ path.

(** The table [attributeMap], in the order of its entries. *)
Definition attributeMap : list (string * string) :=
  [ ("stroke-width", "strokeWidth");
    ("stroke-linecap", "strokeLinecap");
    ("stroke-linejoin", "strokeLinejoin");
    ("fill-rule", "fillRule");
    ("clip-rule", "clipRule");
    ("fill-opacity", "fillOpacity");
    ("stroke-opacity", "strokeOpacity") ].

(** The regular expressions of [processSvgForReact]. *)
Definition xmlDeclaration : matcher := delimited "<?xml" "?" "?>".
Definition widthAttribute : matcher := delimited ("width=" ++ DQ) dquote DQ.
Definition heightAttribute : matcher := delimited ("height=" ++ DQ) dquote DQ.
Definition classAttribute : matcher := delimited ("class=" ++ DQ) dquote DQ.
Definition svgTag : matcher := literal "<svg".
Definition svgOpeningTag : matcher := delimited "<svg" ">" ">".

(** The steps of [processSvgForReact] on the text, each one a statement of
    the method. *)
Definition removeXmlDeclaration (text : string) : string :=
  replaceAll xmlDeclaration EmptyString text.

Definition camelCaseAttributes (text : string) : string :=
  fold_left (fun processed entry => replaceAll (literal (fst entry)) (snd entry) processed)
    attributeMap text.

Definition widthProp (processed : string) : string :=
  if includes processed "width="
  then replaceAll widthAttribute "width={width}" processed
  else replaceFirst svgTag (fun _ => "<svg width={width}") processed.

Definition heightProp (processed : string) : string :=
  if includes processed "height="
  then replaceAll heightAttribute "height={height}" processed
  else replaceFirst svgTag (fun _ => "<svg height={height}") processed.

(** The text of the title element with the line break and the indentation
    that the replacement puts before it. *)
Definition titleElement : string := "
        <title>{title}</title>".

(** The replacement of the first opening tag of [svg] (the pattern is [<svg],
    a group of code units other than [>], then [>]) by [<svg$1>] followed by
    the title element: the group [$1] is the matched text without its first
    four code units and its last one. *)
Definition insertTitle (processed : string) : string :=
  replaceFirst svgOpeningTag
    (fun matched =>
       let group1 := sliceTo (String.length matched - 5) (sliceFrom 4 matched) in
       "<svg" ++ group1 ++ ">" ++ titleElement)
    processed.

Definition removeClass (processed : string) : string :=
  replaceAll classAttribute EmptyString processed.

Definition spreadRest (processed : string) : string :=
  replaceFirst svgTag (fun _ => "<svg {...rest}") processed.

(** The text [processed] just before it is put in the component. *)
Definition processedMarkup (text : string) : string :=
  spreadRest
    (removeClass
       (insertTitle
          (heightProp
             (widthProp
                (camelCaseAttributes
                   (removeXmlDeclaration text)))))).

(** The template literal that [processSvgForReact] returns. *)
Definition componentSource (iconName processed : string) : string :=
  "
import type { SVGProps } from 'react';

interface IconProps extends SVGProps<SVGSVGElement> {
    title?: string;
}

export default function BootstrapHeart({
    title = '" ++ iconName ++ "',
    width,
    height,
    ...rest
}: IconProps): React.ReactNode {
    return (
        " ++ trim processed ++ "
    );
}
        ".

(** An uncaught [Error]: its message. *)
Definition Error := string.

(** [processSvgForReact(componentName)] *)
Definition processSvgForReact (this : IconInput) (componentName : string)
  : Error + string :=
  if negb (truthy (svgText this))
  then inl ("SVG text is not available for icon " ++ name this)
  else inr (componentSource (name this) (processedMarkup (default EmptyString (svgText this)))).

(** [s.split('-')] *)
Fixpoint splitOnHyphen (current : string) (s : string) : list string :=
  match s with
  | EmptyString => [current]
  | String c s' =>
      if Ascii.eqb c "-" then current :: splitOnHyphen EmptyString s'
      else splitOnHyphen (current ++ String c EmptyString) s'
  end.

Definition split_hyphen (s : string) : list string := splitOnHyphen EmptyString s.

(** [c.toUpperCase()] for a text of one code unit below 256: the letters
    a-z, and the Latin-1 small letters U+00E0 .. U+00FE except the division
    sign U+00F7, move down by 32; the sharp s U+00DF gives the two letters
    SS; every other code unit is kept.  Two code units are outside the model:
    the capitals of U+00B5 and of U+00FF are U+039C and U+0178, which are not
    below 256.  The function leaves these two as they are, and is to be read
    on the other code units only. *)
Definition toUpperCaseChar (c : ascii) : string :=
  if Nat.eqb (code c) 223 then "SS"
  else if inRange 97 122 c || (inRange 224 254 c && negb (Nat.eqb (code c) 247))
  then String (ascii_of_nat (code c - 32)) EmptyString
  else String c EmptyString.

(** [part.charAt(0).toUpperCase() + part.slice(1)] *)
Definition capitalize (part : string) : string :=
  match part with
  | EmptyString => EmptyString
  | String c rest => toUpperCaseChar c ++ rest
  end.

(** The component name that [transform] computes:
    [this.filename.split('-').map(capitalize).join('')] *)
Definition componentNameOf (filename : string) : string :=
  String.concat EmptyString (map capitalize (split_hyphen filename)).

(** [transform]: the completion, and the icon after the call. *)
Definition transform (this : IconInput) : (Error + unit) * IconInput :=
  if negb (truthy (svgText this))
  then (inl ("Icon data is not downloaded for " ++ name this), this)
  else if tsxTransform this then
    let componentName := componentNameOf (filename this) in
    match processSvgForReact this componentName with
    | inl e => (inl e, this)
    | inr source => (inr tt, setSvgText source this)
    end
  else (inr tt, this).

(* ===================================================================== *)
(** ** IconInput.ts: the methods with effects *)

(** What [fetch] hands back: the promise rejects (no connection), or it
    resolves with a response, of which the method reads [ok], [status],
    [statusText] and, with [text()], the body.  Reading the body is modelled
    for the calls that resolve. *)
Record Response := {
  ok : bool;
  status : Z;
  statusText : string;
  body : string
}.

Inductive FetchOutcome :=
| Rejected (reason : Error)
| Resolved (response : Response).

(** The world outside the icon: the URLs requested so far, the lines printed
    by [console.warn], the files by the path they were written under, and
    the directories that [mkdir] was asked for. *)
Record World := {
  requests : list string;
  warnings : list string;
  files : gmap string string;
  directories : gset string
}.

(** A method runs on the icon [this] and on the world; it completes normally
    with a value or throws, and leaves the icon and the world as they are at
    that point. *)
Definition Method (A : Type) : Type :=
  IconInput -> World -> (Error + A) * IconInput * World.

Definition ret {A : Type} (a : A) : Method A :=
  fun this w => (inr a, this, w).

Definition throw {A : Type} (e : Error) : Method A :=
  fun this w => (inl e, this, w).

Definition bind {A B : Type} (m : Method A) (k : A -> Method B) : Method B :=
  fun this w =>
    match m this w with
    | (inl e, this', w') => (inl e, this', w')
    | (inr a, this', w') => k a this' w'
    end.

Notation "x <- m ;; k" := (bind m (fun x => k))
  (at level 100, m at next level, right associativity).
Notation "m ;;; k" := (bind m (fun _ => k))
  (at level 100, right associativity).

Definition getThis : Method IconInput :=
  fun this w => (inr this, this, w).

Definition assignSvgText (text : string) : Method unit :=
  fun this w => (inr tt, setSvgText text this, w).

Definition warn (message : string) : Method unit :=
  fun this w =>
    (inr tt, this,
     {| requests := requests w; warnings := logError message (warnings w);
        files := files w; directories := directories w |}).

(** [mkdir(dir, { recursive: true })] when it resolves: the directory is
    recorded as asked for.  The ancestors that the call creates with it are
    not listed, and a call that rejects is not described. *)
Definition mkdir (dir : string) : Method unit :=
  fun this w =>
    (inr tt, this,
     {| requests := requests w; warnings := warnings w;
        files := files w; directories := {[ dir ]} ∪ directories w |}).

(** [writeFile(path, text, 'utf-8')] when it resolves: the file holds [text]
    afterwards, whatever it held before.  A call that rejects is not
    described. *)
Definition writeFile (path text : string) : Method unit :=
  fun this w =>
    (inr tt, this,
     {| requests := requests w; warnings := warnings w;
        files := <[ path := text ]> (files w); directories := directories w |}).

Section Environment.

(** The network: the outcome of a request depends on the URL and on the
    requests made before it. *)
Variable network : list string -> string -> FetchOutcome.

(** [path.dirname] of the runtime. *)
Variable dirname : string -> string.

(** [await fetch(url)] *)
Definition fetch (url : string) : Method Response :=
  fun this w =>
    let w' := {| requests := (requests w ++ [url])%list; warnings := warnings w;
                 files := files w; directories := directories w |} in
    match network (requests w) url with
    | Rejected reason => (inl reason, this, w')
    | Resolved response => (inr response, this, w')
    end.

(** [grabSvgText] *)
Definition grabSvgText : Method unit :=
  this <- getThis ;;
  if truthy (svgText this) then ret tt
  else
    let url := buildUrl this in
    response <- fetch url ;;
    if negb (ok response) then
      let error :=
        "Failed to download icon " ++ name this ++ " from " ++ url ++ ": "
          ++ numberToString (status response) ++ " " ++ statusText response in
      warn error ;;;
      throw error
    else
      let data := body response in
      assignSvgText data.

(** [saveToFile] *)
Definition saveToFile : Method unit :=
  this <- getThis ;;
  if negb (truthy (svgText this))
  then throw ("Icon data is not downloaded for " ++ name this)
  else
    let filePath :=
      if tsxTransform this
      then output this ++ "/" ++ filename this ++ ".tsx"
      else output this ++ "/" ++ filename this ++ ".svg" in
    mkdir (dirname filePath) ;;;
    writeFile filePath (default EmptyString (svgText this)).

(** [transform] as a step of [download]. *)
Definition transformStep : Method unit :=
  fun this w => let '(r, this') := transform this in (r, this', w).

(** [download] *)
Definition download : Method unit :=
  grabSvgText ;;;
  transformStep ;;;
  saveToFile.

End Environment.


(* ===================================================================== *)
(** ** types.ts and utils.ts: the configuration and its loader *)

Module IconConfig.
Record t := {
  repository : option string;
  name : string;
  variant : option string;
  size : option Z;
  output : option string;
  saveAs : option string;
  overwrite : option bool;
  tsxTransform : option bool
}.
End IconConfig.

Module Config.
Record t := {
  repository : option string;
  output : option string;
  icons : list IconConfig.t
}.
End Config.

(** The map [repositoryMap] of [utils.ts]: the presets are entered one after
    the other under their names, a later preset replacing an earlier one of
    the same name. *)
Definition repositoryMap (presets : list RepositoryConfig.t)
  : gmap string RepositoryConfig.t :=
  fold_left (fun m repo => <[ RepositoryConfig.name repo := repo ]> m) presets ∅.

(** [repositoryMap.get(icon.repository)]: no preset is entered under
    [undefined]. *)
Definition getRepository (m : gmap string RepositoryConfig.t) (key : option string)
  : option RepositoryConfig.t :=
  match key with
  | Some k => m !! k
  | None => None
  end.

(** The descriptor that the loop of the loader builds for one entry. *)
Definition iconInputOf (data : Config.t) (icon : IconConfig.t)
    (repository : RepositoryConfig.t) : IconInput :=
  let output := orElse (IconConfig.output icon) (orElse (Config.output data) ".") in
  let filename := orElse (IconConfig.saveAs icon) (santizeFilename (IconConfig.name icon)) in
  newIconInput output (IconConfig.name icon) filename (IconConfig.variant icon)
    (IconConfig.size icon) repository (IconConfig.overwrite icon)
    (IconConfig.tsxTransform icon).

(** The loop [for (const icon of data.icons)]: [iconConfigs] holds the
    descriptors pushed so far; the first entry without a preset throws. *)
Fixpoint pushIconInputs (m : gmap string RepositoryConfig.t) (data : Config.t)
    (iconConfigs : list IconInput) (icons : list IconConfig.t)
  : Error + list IconInput :=
  match icons with
  | [] => inr iconConfigs
  | icon :: rest =>
      match getRepository m (IconConfig.repository icon) with
      | None =>
          inl ("Unknown repository preset: "
                 ++ default "undefined" (IconConfig.repository icon))
      | Some repository =>
          pushIconInputs m data
            (iconConfigs ++ [iconInputOf data icon repository])%list rest
      end
  end.

Section Loader.

(** The compiled schema: [validate data] is [None] when the data passes, and
    the text of the errors otherwise.  The presets are the table of
    [presets.yaml]. *)
Variable validate : Config.t -> option string.
Variable presets : list RepositoryConfig.t.

(** [loadAndParseIconInputsFromFile] from the parsed data on: what comes
    before (the file is read and parsed as JSON) and the line that prints
    the validation errors are left out. *)
Definition loadAndParseIconInputs (data : Config.t) : Error + list IconInput :=
  match validate data with
  | Some errorsText => inl ("Invalid icons input file: " ++ errorsText)
  | None => pushIconInputs (repositoryMap presets) data [] (Config.icons data)
  end.

End Loader.
(* ===================================================================== *)
(** ** Vocabulary of the statements *)

(** The matcher [m] matches somewhere in [s]. *)
Fixpoint matchesIn (m : matcher) (s : string) : bool :=
  match m s with
  | Some _ => true
  | None =>
      match s with
      | EmptyString => false
      | String _ s' => matchesIn m s'
      end
  end.

(** Number of positions of [s] at which [p] occurs. *)
Fixpoint occurrences (p s : string) : nat :=
  match s with
  | EmptyString => 0
  | String _ s' => (if startsWith s p then 1 else 0) + occurrences p s'
  end.

(** The code unit [c] occurs in [s]. *)
Fixpoint hasChar (c : ascii) (s : string) : bool :=
  match s with
  | EmptyString => false
  | String d s' => Ascii.eqb d c || hasChar c s'
  end.

(** Last code unit of [s], if any. *)
Fixpoint lastChar (s : string) : option ascii :=
  match s with
  | EmptyString => None
  | String c EmptyString => Some c
  | String _ s' => lastChar s'
  end.

(* ===================================================================== *)
(** ** Fixtures of the test suite, and the path of the URL *)

Definition heroicons : RepositoryConfig.t :=
  {| RepositoryConfig.name := "heroicons";
     RepositoryConfig.owner := "tailwindlabs";
     RepositoryConfig.repo := "heroicons";
     RepositoryConfig.branch := Some "master";
     RepositoryConfig.pathTemplate := "optimized/24/{variant}/{iconName}.svg";
     RepositoryConfig.variantMap := None;
     RepositoryConfig.demoUrl := None |}.

Definition lucide : RepositoryConfig.t :=
  {| RepositoryConfig.name := "lucide";
     RepositoryConfig.owner := "lucide-icons";
     RepositoryConfig.repo := "lucide";
     RepositoryConfig.branch := None;
     RepositoryConfig.pathTemplate := "icons/{iconName}.svg";
     RepositoryConfig.variantMap := None;
     RepositoryConfig.demoUrl := None |}.

Definition arrowRight : IconInput :=
  newIconInput "./icons" "arrow-right" "arrow-right" (Some "outline") (Some 24%Z)
    heroicons None None.

Definition settings : IconInput :=
  newIconInput "./icons" "settings" "settings" None None lucide None None.

(** The path of the URL: the template after the three replacements. *)
Definition pathOf (this : IconInput) : string :=
  replace
    (replace
       (replace (RepositoryConfig.pathTemplate (repository this))
          "{variant}" (orElse (variant this) EmptyString))
       "{size}" (orElse (option_map numberToString (size this)) EmptyString))
    "{iconName}" (name this).


(** The texts that [buildUrl] puts in the place of {variant} and of {size}:
    [this.variant || ''] and [this.size?.toString() || '']. *)
Definition variantText (this : IconInput) : string :=
  orElse (variant this) EmptyString.

Definition sizeText (this : IconInput) : string :=
  orElse (option_map numberToString (size this)) EmptyString.

(** [Number.isSafeInteger]: the integers that [toString] prints in plain
    decimal, digit for digit. *)
Definition isSafeInteger (n : Z) : Prop := (- 2 ^ 53 < n < 2 ^ 53)%Z.

(** The size of the icon, when it has one, is a safe integer. *)
Definition safeSize (this : IconInput) : Prop :=
  forall n : Z, size this = Some n -> isSafeInteger n.

(** The start of every URL: host, owner, repository and branch. *)
Definition baseUrlOf (this : IconInput) : string :=
  "https://raw.githubusercontent.com/" ++ RepositoryConfig.owner (repository this)
    ++ "/" ++ RepositoryConfig.repo (repository this)
    ++ "/" ++ orElse (RepositoryConfig.branch (repository this)) "main".

(** The code units of a number in decimal: the digits and the minus sign. *)
Definition isDecimalChar (c : ascii) : bool :=
  inRange 48 57 c || Nat.eqb (code c) 45.

(** The three placeholders of a path template. *)
Definition isPlaceholder (p : string) : Prop :=
  p = "{variant}" \/ p = "{size}" \/ p = "{iconName}".

(** The three parts of the result of a method. *)
Definition completionOf {A : Type} (r : (Error + A) * IconInput * World) : Error + A :=
  fst (fst r).
Definition iconAfter {A : Type} (r : (Error + A) * IconInput * World) : IconInput :=
  snd (fst r).
Definition worldAfter {A : Type} (r : (Error + A) * IconInput * World) : World :=
  snd r.

(** The world after one more request. *)
Definition requested (url : string) (w : World) : World :=
  {| requests := (requests w ++ [url])%list; warnings := warnings w;
     files := files w; directories := directories w |}.

(** The world after one more line of [console.warn]. *)
Definition warned (message : string) (w : World) : World :=
  {| requests := requests w; warnings := (warnings w ++ [message])%list;
     files := files w; directories := directories w |}.


(** [n] calls of a method in a row, up to the first that throws. *)
Fixpoint times (n : nat) (m : Method unit) : Method unit :=
  match n with
  | O => ret tt
  | S k => m ;;; times k m
  end.

(** The message of the error of [grabSvgText] for a response. *)
Definition downloadFailure (this : IconInput) (response : Response) : Error :=
  "Failed to download icon " ++ name this ++ " from " ++ buildUrl this ++ ": "
    ++ numberToString (status response) ++ " " ++ statusText response.

(** An empty world, and servers that always give the same answer. *)
Definition emptyWorld : World :=
  {| requests := []; warnings := []; files := ∅; directories := ∅ |}.

Definition serverSays (response : Response) : list string -> string -> FetchOutcome :=
  fun _ _ => Resolved response.

Definition notFound : Response :=
  {| ok := false; status := 404; statusText := "Not Found"; body := EmptyString |}.

Definition found (text : string) : Response :=
  {| ok := true; status := 200; statusText := "OK"; body := text |}.

(** The path under which [saveToFile] writes. *)
Definition filePathOf (this : IconInput) : string :=
  if tsxTransform this
  then output this ++ "/" ++ filename this ++ ".tsx"
  else output this ++ "/" ++ filename this ++ ".svg".

(** The icon of the end-to-end test of the TSX transform: the icon check of
    heroicons, saved as check-icon, with the TSX flag set. *)
Definition checkIcon : IconInput :=
  setSvgText "<svg viewBox='0 0 24 24'><path d='M0 0'/></svg>"
    (newIconInput "/tmp/icd-integration-test" "check" "check-icon" (Some "24/solid") None
       heroicons None (Some true)).

(** The pattern [before], [stop], a run of code units other than [stop],
    [stop]: an attribute with its value between double quotes is of that
    form. *)
Definition quoted (before : string) (stop : ascii) : matcher :=
  delimited (before ++ String stop EmptyString) stop (String stop EmptyString).

(** Every occurrence of the opening [before stop] in [x] has a [stop] after
    it in [x]: no attribute of that name is left open at the end of [x]. *)
Fixpoint closesWithin (before : string) (stop : ascii) (x : string) : bool :=
  (if startsWith x (before ++ String stop EmptyString)
   then hasChar stop (sliceFrom (S (String.length before)) x)
   else true)
  && match x with
     | EmptyString => true
     | String _ x' => closesWithin before stop x'
     end.

(** The text that reaches the title step of [processSvgForReact]. *)
Definition beforeTitle (text : string) : string :=
  heightProp (widthProp (camelCaseAttributes (removeXmlDeclaration text))).

(** No occurrence of the opening [before stop] starts in [x] and ends in
    [y]. *)
Definition noCrossing (before : string) (stop : ascii) (x y : string) : Prop :=
  forall (u : string) (c : ascii) (v : string),
    x = u ++ String c v ->
    startsWith (String c v ++ y) (before ++ String stop EmptyString) = true ->
    startsWith (String c v) (before ++ String stop EmptyString) = true.

(* ===================================================================== *)
(** ** More fixtures *)

Definition doubledTemplate : RepositoryConfig.t :=
  {| RepositoryConfig.name := "doubled";
     RepositoryConfig.owner := "o";
     RepositoryConfig.repo := "r";
     RepositoryConfig.branch := None;
     RepositoryConfig.pathTemplate := "{iconName}/{size}/{iconName}.svg";
     RepositoryConfig.variantMap := None;
     RepositoryConfig.demoUrl := None |}.

Definition doubledSize : RepositoryConfig.t :=
  {| RepositoryConfig.name := "doubled-size";
     RepositoryConfig.owner := "o";
     RepositoryConfig.repo := "r";
     RepositoryConfig.branch := None;
     RepositoryConfig.pathTemplate := "icons/{size}/{iconName}-{size}.svg";
     RepositoryConfig.variantMap := None;
     RepositoryConfig.demoUrl := None |}.


Definition diskWithOldFile : World :=
  {| requests := []; warnings := [];
     files := {[ "/tmp/test-icons/test-icon.svg" := "old" ]};
     directories := ∅ |}.

(** The input of the test on fixed sizes: the opening tag of [svg] with
    [width] and [height] of 24 between double quotes. *)
Definition svg24 : string :=
  "<svg width=" ++ DQ ++ "24" ++ DQ ++ " height=" ++ DQ ++ "24" ++ DQ ++ ">".

Definition icon24 : IconInput :=
  setSvgText svg24
    (newIconInput "./icons" "test" "test" None None heroicons None (Some true)).

(** An icon in the style of feather: a class on the root tag. *)
Definition featherText : string :=
  "<svg class=" ++ DQ ++ "feather feather-star" ++ DQ
    ++ " viewBox=" ++ DQ ++ "0 0 24 24" ++ DQ
    ++ "><path d=" ++ DQ ++ "M0 0" ++ DQ ++ "/></svg>".

Definition featherIcon : IconInput :=
  setSvgText featherText
    (newIconInput "./icons" "star" "star" None None lucide None (Some true)).

(** An icon whose root tag has a class with [>] in its value. *)
Definition classWithBracket : IconInput :=
  setSvgText ("<svg class=" ++ DQ ++ "a>b" ++ DQ ++ "><path d=" ++ DQ ++ "M0 0" ++ DQ ++ "/></svg>")
    (newIconInput "./icons" "test" "test" None None heroicons None (Some true)).


(* ===================================================================== *)
(** ** Vocabulary of the statements on the loader *)

(** The entry [icon] names a preset of the map. *)
Definition hasPreset (m : gmap string RepositoryConfig.t) (icon : IconConfig.t) : Prop :=
  getRepository m (IconConfig.repository icon) <> None.

(** The descriptor [built] is the one of the entry [icon]: the preset found
    under the name that the entry gives, and the fields of [iconInputOf]. *)
Definition builtFrom (m : gmap string RepositoryConfig.t) (data : Config.t)
    (icon : IconConfig.t) (built : IconInput) : Prop :=
  exists (key : string) (preset : RepositoryConfig.t),
    IconConfig.repository icon = Some key /\
    m !! key = Some preset /\
    built = iconInputOf data icon preset.

(** The message of the error for an entry without preset. *)
Definition unknownPreset (icon : IconConfig.t) : Error :=
  "Unknown repository preset: " ++ default "undefined" (IconConfig.repository icon).

(** A configuration with another global repository. *)
Definition setGlobalRepository (r : option string) (data : Config.t) : Config.t :=
  {| Config.repository := r; Config.output := Config.output data;
     Config.icons := Config.icons data |}.

(** Fixtures: the entries of the loader tests. *)
Definition arrowRightEntry : IconConfig.t :=
  {| IconConfig.repository := Some "heroicons"; IconConfig.name := "arrow-right";
     IconConfig.variant := Some "outline"; IconConfig.size := Some 24%Z;
     IconConfig.output := None; IconConfig.saveAs := None;
     IconConfig.overwrite := None; IconConfig.tsxTransform := None |}.

Definition settingsEntry : IconConfig.t :=
  {| IconConfig.repository := Some "lucide"; IconConfig.name := "Settings Icon";
     IconConfig.variant := None; IconConfig.size := None;
     IconConfig.output := Some "./specific"; IconConfig.saveAs := None;
     IconConfig.overwrite := None; IconConfig.tsxTransform := None |}.

Definition unknownEntry : IconConfig.t :=
  {| IconConfig.repository := Some "unknown-repo"; IconConfig.name := "icon";
     IconConfig.variant := None; IconConfig.size := None;
     IconConfig.output := None; IconConfig.saveAs := None;
     IconConfig.overwrite := None; IconConfig.tsxTransform := None |}.

Definition entryWithoutRepository : IconConfig.t :=
  {| IconConfig.repository := None; IconConfig.name := "home";
     IconConfig.variant := None; IconConfig.size := None;
     IconConfig.output := None; IconConfig.saveAs := None;
     IconConfig.overwrite := None; IconConfig.tsxTransform := None |}.

Definition savedAsEntry : IconConfig.t :=
  {| IconConfig.repository := Some "heroicons"; IconConfig.name := "Check Mark";
     IconConfig.variant := Some "solid"; IconConfig.size := None;
     IconConfig.output := Some EmptyString; IconConfig.saveAs := Some "check";
     IconConfig.overwrite := None; IconConfig.tsxTransform := Some true |}.

Definition twoPresets : list RepositoryConfig.t := [heroicons; lucide].

Definition configOf (global : option string) (icons : list IconConfig.t) : Config.t :=
  {| Config.repository := global; Config.output := Some "./icons";
     Config.icons := icons |}.

Definition accepts : Config.t -> option string := fun _ => None.

(* ===================================================================== *)
(** ** Vocabulary of the statements on the pipeline *)

(** Two icons that agree on every field but the text. *)
Definition sameButText (a b : IconInput) : Prop :=
  setSvgText EmptyString a = setSvgText EmptyString b.

(** The text that [download] saves for a body: the body, or the component
    built from it when the TSX flag is set. *)
Definition savedText (this : IconInput) (text : string) : string :=
  if tsxTransform this
  then componentSource (name this) (processedMarkup text)
  else text.

(** A raw icon and a TSX icon without text yet. *)
Definition rawIcon : IconInput :=
  newIconInput "/tmp/test-icons" "test-icon" "test-icon" None None heroicons None None.

Definition tsxIcon : IconInput :=
  newIconInput "/tmp/test-icons" "test-tsx" "test-tsx" None None heroicons None (Some true).

Definition parentOf : string -> string := fun _ => "/tmp/test-icons".



(** An icon of a repository whose template has a place for the size. *)
Definition sizedRepository : RepositoryConfig.t :=
  {| RepositoryConfig.name := "heroicons";
     RepositoryConfig.owner := "test";
     RepositoryConfig.repo := "test";
     RepositoryConfig.branch := None;
     RepositoryConfig.pathTemplate := "icons/{size}/{iconName}.svg";
     RepositoryConfig.variantMap := None;
     RepositoryConfig.demoUrl := None |}.

Definition star48 : IconInput :=
  newIconInput "./icons" "star" "star" None (Some 48%Z) sizedRepository None None.

(** The text ends, or starts, with white space. *)
Definition endsWithWhiteSpace (s : string) : bool :=
  match lastChar s with
  | Some e => isWhiteSpace e
  | None => false
  end.

Definition startsWithWhiteSpace (s : string) : bool :=
  match s with
  | String c _ => isWhiteSpace c
  | EmptyString => false
  end.

(** No suffix of [x], the empty one apart, starts [y] or starts with [y]:
    a text that starts with such a suffix cannot start with [y]. *)
Fixpoint suffixesApart (x y : string) : bool :=
  match x with
  | EmptyString => true
  | String _ x' =>
      negb (startsWith y x) && negb (startsWith x y) && suffixesApart x' y
  end.

(** The capital of the code unit is a text of code units below 256: every
    code unit but U+00B5 and U+00FF. *)
Definition capitalWithin (c : ascii) : bool :=
  negb (Nat.eqb (code c) 181) && negb (Nat.eqb (code c) 255).

(** The classes [[a-z0-9]] and [[A-Za-z0-9]]. *)
Definition isLowerOrDigit (c : ascii) : bool :=
  inRange 97 122 c || inRange 48 57 c.

Definition isLetterOrDigit (c : ascii) : bool :=
  inRange 65 90 c || inRange 97 122 c || inRange 48 57 c.

(** The names that [attributeMap] renames. *)
Definition kebabNames : list string := map fst attributeMap.

(** A plain icon: nothing before the root tag but for text without [<]. *)
Definition plainIconText : string :=
  "<svg viewBox=" ++ DQ ++ "0 0 24 24" ++ DQ ++ "><path d=" ++ DQ ++ "M0 0" ++ DQ
    ++ "/></svg>".
(* ===================================================================== *)
(** * Properties *)

(** ** Strings *)

Arguments String.append !s1 s2 : simpl nomatch.

Lemma append_assoc (a b c : string) : (a ++ b) ++ c = a ++ b ++ c.
Proof. induction a as [|x a IH]; simpl; [reflexivity | now rewrite IH]. Qed.

Lemma length_append (a b : string) :
  String.length (a ++ b) = String.length a + String.length b.
Proof. induction a as [|x a IH]; simpl; [reflexivity | now rewrite IH]. Qed.

Lemma sliceFrom_append (a b : string) : sliceFrom (String.length a) (a ++ b) = b.
Proof. induction a as [|x a IH]; simpl; [now destruct b | exact IH]. Qed.

Lemma sliceTo_append (a b : string) : sliceTo (String.length a) (a ++ b) = a.
Proof. induction a as [|x a IH]; simpl; [now destruct b | now rewrite IH]. Qed.

Lemma slice_split (n : nat) (s : string) : sliceTo n s ++ sliceFrom n s = s.
Proof.
  revert s; induction n as [|n IH]; intros [|c s]; simpl; try reflexivity.
  now rewrite IH.
Qed.

Lemma startsWith_append (p t : string) : startsWith (p ++ t) p = true.
Proof.
  induction p as [|x p IH]; simpl; [reflexivity |].
  now rewrite Ascii.eqb_refl, IH.
Qed.

Lemma startsWith_inv (s p : string) :
  startsWith s p = true -> s = p ++ sliceFrom (String.length p) s.
Proof.
  revert s; induction p as [|x p IH]; intros [|c s]; simpl; try discriminate;
    try reflexivity.
  intros H. apply andb_true_iff in H as [Hc Hs].
  apply Ascii.eqb_eq in Hc. subst c. f_equal. now apply IH.
Qed.

Lemma startsWith_iff (s p : string) :
  startsWith s p = true <-> exists t, s = p ++ t.
Proof.
  split.
  - intros H. eexists. now apply startsWith_inv.
  - intros [t ->]. apply startsWith_append.
Qed.

Lemma startsWith_extend (s p t : string) :
  startsWith s p = true -> startsWith (s ++ t) p = true.
Proof.
  intros H. apply startsWith_iff in H as [u ->].
  rewrite append_assoc. apply startsWith_append.
Qed.

Lemma includes_here (s p : string) : startsWith s p = true -> includes s p = true.
Proof. intros H. destruct s; simpl in *; rewrite H; reflexivity. Qed.

Lemma includes_later (c : ascii) (s p : string) :
  includes s p = true -> includes (String c s) p = true.
Proof. intros H. simpl. rewrite H. apply orb_true_r. Qed.

Lemma includes_iff (s p : string) :
  includes s p = true <-> exists a b, s = a ++ p ++ b.
Proof.
  split.
  - induction s as [|c s IH]; simpl.
    + rewrite orb_false_r. intros H. apply startsWith_iff in H as [t Ht].
      exists EmptyString, t. exact Ht.
    + intros H. apply orb_true_iff in H as [H | H].
      * apply startsWith_iff in H as [t Ht]. exists EmptyString, t. exact Ht.
      * destruct (IH H) as (a & b & ->). exists (String c a), b. reflexivity.
  - intros (a & b & ->). induction a as [|c a IH]; simpl.
    + apply includes_here, startsWith_append.
    + rewrite IH. apply orb_true_r.
Qed.

Lemma includes_middle (a p b : string) : includes (a ++ p ++ b) p = true.
Proof. apply includes_iff. now exists a, b. Qed.

Lemma allChars_append (P : ascii -> bool) (a b : string) :
  allChars P (a ++ b) = allChars P a && allChars P b.
Proof.
  induction a as [|x a IH]; simpl; [reflexivity |].
  now rewrite IH, andb_assoc.
Qed.

Lemma allChars_impl (P Q : ascii -> bool) (s : string) :
  (forall c, P c = true -> Q c = true) ->
  allChars P s = true -> allChars Q s = true.
Proof.
  intros HPQ. induction s as [|c s IH]; simpl; [reflexivity |].
  intros H. apply andb_true_iff in H as [Hc Hs].
  now rewrite (HPQ c Hc), IH.
Qed.

(** ** Global replacement *)

Lemma replaceAllFrom_skip (m : matcher) (r : string) (k : nat) (s : string) :
  replaceAllFrom m r k s = replaceAll m r (sliceFrom k s).
Proof.
  revert k; induction s as [|c s IH]; intros [|k]; simpl; try reflexivity.
  apply IH.
Qed.

Lemma replaceAll_no_match (m : matcher) (r : string) (c : ascii) (s : string) :
  m (String c s) = None ->
  replaceAll m r (String c s) = String c (replaceAll m r s).
Proof. intros H. unfold replaceAll. simpl. now rewrite H. Qed.

Lemma replaceAllFrom_allChars (P : ascii -> bool) (m : matcher) (r : string) :
  allChars P r = true ->
  (forall c s, m (String c s) = None -> P c = true) ->
  forall s k, allChars P (replaceAllFrom m r k s) = true.
Proof.
  intros Hr Hm. induction s as [|c s IH]; intros k; simpl; [reflexivity |].
  destruct k as [|k]; [| apply IH].
  destruct (m (String c s)) as [n|] eqn:E.
  - rewrite allChars_append, Hr, IH. reflexivity.
  - simpl. rewrite (Hm c s E), IH. reflexivity.
Qed.

Lemma replaceAll_unmatched (m : matcher) (r : string) (s : string) :
  matchesIn m s = false -> replaceAll m r s = s.
Proof.
  induction s as [|c s IH]; [reflexivity |].
  simpl. destruct (m (String c s)) eqn:E; [discriminate |].
  intros H. rewrite replaceAll_no_match by exact E. now rewrite IH.
Qed.

(** The patterns of the program match at least one code unit, as
    [replaceAllFrom] supposes. *)
Lemma delimited_not_empty (opening : string) (stop : ascii) (closing s : string) (n : nat) :
  opening <> EmptyString ->
  delimited opening stop closing s = Some n -> 1 <= n.
Proof.
  intros Hopening. unfold delimited. cbv zeta.
  destruct (startsWith s opening); [| discriminate].
  destruct (startsWith _ closing); [| discriminate].
  intros [= <-]. destruct opening; [congruence | simpl; lia].
Qed.

Lemma literal_not_empty (p s : string) (n : nat) :
  p <> EmptyString -> literal p s = Some n -> 1 <= n.
Proof.
  intros Hp. unfold literal. destruct (startsWith s p); [| discriminate].
  intros [= <-]. destruct p; [congruence | simpl; lia].
Qed.

Lemma whiteSpaces_not_empty (s : string) (n : nat) :
  whiteSpaces s = Some n -> 1 <= n.
Proof.
  unfold whiteSpaces. destruct (whiteSpaceRun s); [discriminate |].
  intros [= <-]. lia.
Qed.

Lemma notFilenameChar_not_empty (s : string) (n : nat) :
  notFilenameChar s = Some n -> 1 <= n.
Proof.
  destruct s as [|c s]; simpl; [discriminate |].
  destruct (isFilenameChar c); [discriminate |]. intros [= <-]. lia.
Qed.

(** ** santizeFilename *)

(** A fact on one code unit under a boolean condition is checked on the 256
    code units. *)
Ltac each_code_unit c :=
  destruct c as [[] [] [] [] [] [] [] []]; vm_compute;
  let H := fresh in intros H; try discriminate H; reflexivity.

Example santize_MyIcon : santizeFilename "MyIcon" = "myicon".
Proof. reflexivity. Qed.

Example santize_spaces : santizeFilename "my icon name" = "my-icon-name".
Proof. reflexivity. Qed.

Example santize_special : santizeFilename "icon@name#test" = "icon-name-test".
Proof. reflexivity. Qed.

Example santize_run : santizeFilename "icon   name" = "icon-name".
Proof. reflexivity. Qed.

Example santize_mixed : santizeFilename "Arrow_Right Icon!" = "arrow-right-icon-".
Proof. reflexivity. Qed.

Lemma filenameChar_lower (c : ascii) :
  isFilenameChar c = true -> toLowerCaseChar c = c.
Proof. each_code_unit c. Qed.

Lemma filenameChar_not_space (c : ascii) :
  isFilenameChar c = true -> negb (isWhiteSpace c) = true.
Proof. each_code_unit c. Qed.

Lemma toLowerCase_fixed (s : string) :
  allChars isFilenameChar s = true -> toLowerCase s = s.
Proof.
  induction s as [|c s IH]; simpl; [reflexivity |].
  intros H. apply andb_true_iff in H as [Hc Hs].
  now rewrite (filenameChar_lower c Hc), IH.
Qed.

Lemma whiteSpaces_unmatched (s : string) :
  allChars (fun c => negb (isWhiteSpace c)) s = true ->
  matchesIn whiteSpaces s = false.
Proof.
  induction s as [|c s IH]; simpl; [reflexivity |].
  intros H. apply andb_true_iff in H as [Hc Hs].
  unfold whiteSpaces. simpl. apply negb_true_iff in Hc. rewrite Hc.
  now apply IH.
Qed.

Lemma notFilenameChar_unmatched (s : string) :
  allChars isFilenameChar s = true -> matchesIn notFilenameChar s = false.
Proof.
  induction s as [|c s IH]; simpl; [reflexivity |].
  intros H. apply andb_true_iff in H as [Hc Hs].
  rewrite Hc. now apply IH.
Qed.

Lemma santizeFilename_fixed (s : string) :
  allChars isFilenameChar s = true -> santizeFilename s = s.
Proof.
  intros H. unfold santizeFilename.
  rewrite (toLowerCase_fixed s H).
  rewrite (replaceAll_unmatched whiteSpaces).
  - now apply replaceAll_unmatched, notFilenameChar_unmatched.
  - apply whiteSpaces_unmatched.
    revert H. apply allChars_impl. exact filenameChar_not_space.
Qed.

Lemma santizeFilename_chars (s : string) :
  allChars isFilenameChar (santizeFilename s) = true.
Proof.
  unfold santizeFilename, replaceAll.
  apply replaceAllFrom_allChars; [reflexivity |].
  intros c t. simpl. now destruct (isFilenameChar c).
Qed.

(** C7. For every input, [santizeFilename] returns a string made of the code
    units a-z, 0-9 and the hyphen only; the result is in lower case (lowering
    it changes nothing) and holds no white space; and the function is
    idempotent: a second pass changes nothing, every string that is already
    made of a-z, 0-9 and the hyphen is returned as it is, and so is
    arrow-right. *)
Theorem santizeFilename_sanitizes :
  (forall raw : string,
      allChars isFilenameChar (santizeFilename raw) = true /\
      toLowerCase (santizeFilename raw) = santizeFilename raw /\
      allChars (fun c => negb (isWhiteSpace c)) (santizeFilename raw) = true /\
      santizeFilename (santizeFilename raw) = santizeFilename raw) /\
  (forall clean : string,
      allChars isFilenameChar clean = true -> santizeFilename clean = clean) /\
  santizeFilename "arrow-right" = "arrow-right".
Proof.
  split; [| split; [exact santizeFilename_fixed | reflexivity]].
  intros raw. pose proof (santizeFilename_chars raw) as H.
  repeat split.
  - exact H.
  - now apply toLowerCase_fixed.
  - revert H. apply allChars_impl. exact filenameChar_not_space.
  - now apply santizeFilename_fixed.
Qed.

Lemma santizeFilename_sanitizes_witness :
  allChars isFilenameChar "my-icon-2" = true /\
  santizeFilename "my-icon-2" = "my-icon-2" /\
  santizeFilename "Arrow_Right Icon!" = "arrow-right-icon-".
Proof.
  split; [reflexivity |]. split.
  - apply (proj1 (proj2 santizeFilename_sanitizes) "my-icon-2"). reflexivity.
  - reflexivity.
Defined.

(** ** buildUrl *)

Lemma buildUrl_unfold (this : IconInput) :
  buildUrl this =
  "https://raw.githubusercontent.com/" ++ RepositoryConfig.owner (repository this)
    ++ "/" ++ RepositoryConfig.repo (repository this)
    ++ "/" ++ orElse (RepositoryConfig.branch (repository this)) "main"
    ++ "/" ++ pathOf this.
Proof.
  unfold buildUrl, pathOf. cbv zeta.
  change ("https://raw.githubusercontent.com/" ++ ?x)
    with ("https://raw.githubusercontent.com" ++ "/" ++ x).
  now rewrite !append_assoc.
Qed.

Example buildUrl_feather :
  buildUrl (newIconInput "./icons" "home" "home" None None
              {| RepositoryConfig.name := "feather";
                 RepositoryConfig.owner := "feathericons";
                 RepositoryConfig.repo := "feather";
                 RepositoryConfig.branch := None;
                 RepositoryConfig.pathTemplate := "icons/{iconName}.svg";
                 RepositoryConfig.variantMap := None;
                 RepositoryConfig.demoUrl := None |} None None)
  = "https://raw.githubusercontent.com/feathericons/feather/main/icons/home.svg".
Proof. reflexivity. Qed.

(** C6. For the repository of owner tailwindlabs, name heroicons, branch
    master and template optimized/24/{variant}/{iconName}.svg, the icon
    arrow-right of variant outline gets exactly the URL
    https://raw.githubusercontent.com/tailwindlabs/heroicons/master/optimized/24/outline/arrow-right.svg;
    and for every icon whose repository has no branch, the URL is the host,
    the owner, the repository, then the segment main, then the path. *)
Theorem buildUrl_heroicons_and_default_branch :
  buildUrl arrowRight =
    "https://raw.githubusercontent.com/tailwindlabs/heroicons/master/optimized/24/outline/arrow-right.svg"
  /\
  (forall this : IconInput,
      RepositoryConfig.branch (repository this) = None ->
      buildUrl this =
        "https://raw.githubusercontent.com/" ++ RepositoryConfig.owner (repository this)
          ++ "/" ++ RepositoryConfig.repo (repository this)
          ++ "/main/" ++ pathOf this).
Proof.
  split; [reflexivity |].
  intros this Hbranch. rewrite buildUrl_unfold, Hbranch. reflexivity.
Qed.

Lemma buildUrl_heroicons_and_default_branch_witness :
  buildUrl settings =
    "https://raw.githubusercontent.com/lucide-icons/lucide/main/icons/settings.svg".
Proof.
  rewrite (proj2 buildUrl_heroicons_and_default_branch settings); reflexivity.
Defined.

(** An empty branch is falsy and gets the same default. *)
Lemma buildUrl_empty_branch (this : IconInput) :
  RepositoryConfig.branch (repository this) = Some EmptyString ->
  buildUrl this =
    "https://raw.githubusercontent.com/" ++ RepositoryConfig.owner (repository this)
      ++ "/" ++ RepositoryConfig.repo (repository this)
      ++ "/main/" ++ pathOf this.
Proof. intros H. rewrite buildUrl_unfold, H. reflexivity. Qed.

(** ** Only the first occurrence of a placeholder is substituted *)

Lemma indexOf_split (s p : string) (i : nat) :
  indexOf s p = Some i ->
  s = sliceTo i s ++ p ++ sliceFrom (i + String.length p) s.
Proof.
  revert i; induction s as [|c s IH]; intros i; simpl.
  - destruct (startsWith EmptyString p) eqn:E; [| discriminate].
    intros [= <-]. simpl. now apply startsWith_inv.
  - destruct (startsWith (String c s) p) eqn:E.
    + intros [= <-]. simpl. now apply startsWith_inv.
    + destruct (indexOf s p) as [j|]; simpl; [| discriminate].
      intros [= <-]. simpl. f_equal. now apply IH.
Qed.

(** A replacement either finds nothing and returns the text, or rewrites one
    occurrence and keeps what is before and after it. *)
Lemma replace_cases (s p r : string) :
  replace s p r = s \/
  exists a b g, s = a ++ p ++ b /\ replace s p r = a ++ g ++ b.
Proof.
  unfold replace. destruct (indexOf s p) as [i|] eqn:E; [right | now left].
  eexists _, _, _. split; [apply (indexOf_split _ _ _ E) | reflexivity].
Qed.

Lemma occurrences_append_ge (p a b : string) :
  occurrences p a + occurrences p b <= occurrences p (a ++ b).
Proof.
  induction a as [|c a IH]; simpl; [lia |].
  destruct (startsWith (String c a) p) eqn:E.
  - change (String c (a ++ b)) with (String c a ++ b).
    rewrite (startsWith_extend _ _ b E). lia.
  - lia.
Qed.

Lemma occurrences_includes (p s : string) :
  1 <= occurrences p s -> includes s p = true.
Proof.
  induction s as [|c s IH]; simpl; [lia |].
  destruct (startsWith (String c s) p); [reflexivity |].
  intros H. simpl. apply IH. lia.
Qed.

(** A text without the code unit [d] that starts [x d y] starts [x]. *)
Lemma startsWith_before_char (d : ascii) (w x y : string) :
  hasChar d w = false ->
  startsWith (x ++ String d y) w = true -> startsWith x w = true.
Proof.
  revert x; induction w as [|c w IH]; intros x; simpl; [reflexivity |].
  intros Hw. apply orb_false_iff in Hw as [Hc Hw].
  destruct x as [|b x]; simpl.
  - now rewrite Hc.
  - intros H. apply andb_true_iff in H as [-> H]. now apply IH.
Qed.

Lemma occurrences_placeholder (p q a b : string) :
  isPlaceholder p -> isPlaceholder q ->
  occurrences p (a ++ q ++ b) =
  occurrences p a + (if String.eqb p q then 1 else 0) + occurrences p b.
Proof.
  intros Hp Hq. induction a as [|c a IH].
  - destruct Hp as [-> | [-> | ->]]; destruct Hq as [-> | [-> | ->]]; reflexivity.
  - simpl. rewrite IH.
    assert (startsWith (String c (a ++ q ++ b)) p = startsWith (String c a) p) as ->; [| lia].
    destruct (startsWith (String c (a ++ q ++ b)) p) eqn:E; symmetry.
    + assert (exists w q', p = String "{" w /\ hasChar "{" w = false /\ q = String "{" q')
        as (w & q' & -> & Hw & ->)
        by (destruct Hp as [-> | [-> | ->]]; destruct Hq as [-> | [-> | ->]];
            eexists _, _; repeat split).
      simpl in *. apply andb_true_iff in E as [-> E]. simpl.
      now apply (startsWith_before_char "{" w a (q' ++ b)).
    + destruct (startsWith (String c a) p) eqn:E'; [| reflexivity].
      change (String c (a ++ q ++ b)) with (String c a ++ q ++ b) in E.
      now rewrite (startsWith_extend _ _ _ E') in E.
Qed.

Lemma occurrences_replace (p q s r : string) :
  isPlaceholder p -> isPlaceholder q ->
  occurrences p s - (if String.eqb p q then 1 else 0) <= occurrences p (replace s q r).
Proof.
  intros Hp Hq. destruct (replace_cases s q r) as [-> | (a & b & g & Hs & ->)]; [lia |].
  rewrite Hs, (occurrences_placeholder p q a b Hp Hq).
  pose proof (occurrences_append_ge p a (g ++ b)).
  pose proof (occurrences_append_ge p g b).
  destruct (String.eqb p q); lia.
Qed.

Lemma occurrences_pathOf (this : IconInput) (p : string) :
  isPlaceholder p ->
  occurrences p (RepositoryConfig.pathTemplate (repository this)) - 1
  <= occurrences p (pathOf this).
Proof.
  intros Hp. unfold pathOf.
  set (t0 := RepositoryConfig.pathTemplate (repository this)).
  set (t1 := replace t0 "{variant}" _).
  set (t2 := replace t1 "{size}" _).
  assert (isPlaceholder "{variant}") as Hv by (now left).
  assert (isPlaceholder "{size}") as Hs by (right; now left).
  assert (isPlaceholder "{iconName}") as Hn by (right; now right).
  pose proof (occurrences_replace p _ t0 (orElse (variant this) EmptyString) Hp Hv) as H1.
  pose proof (occurrences_replace p _ t1
                (orElse (option_map numberToString (size this)) EmptyString) Hp Hs) as H2.
  pose proof (occurrences_replace p _ t2 (name this) Hp Hn) as H3.
  fold t1 in H1. fold t2 in H2.
  destruct Hp as [-> | [-> | ->]]; simpl in H1, H2, H3; lia.
Qed.

(** *** The text before a replacement is kept *)

Lemma sliceFrom_sliceFrom (n k : nat) (s : string) :
  sliceFrom n (sliceFrom k s) = sliceFrom (k + n) s.
Proof.
  revert s; induction k as [|k IH]; intros s; simpl; [reflexivity |].
  destruct s as [|c s]; [now destruct n | apply IH].
Qed.

Lemma hasChar_append (c : ascii) (a b : string) :
  hasChar c (a ++ b) = hasChar c a || hasChar c b.
Proof.
  induction a as [|x a IH]; simpl; [reflexivity |].
  now rewrite IH, orb_assoc.
Qed.

Lemma indexOf_here (s p : string) :
  startsWith s p = true -> indexOf s p = Some 0.
Proof. intros H. destruct s; simpl in *; now rewrite H. Qed.

Lemma getSubstitution_plain (matched before after template : string) :
  hasChar "$" template = false ->
  getSubstitution matched before after template = template.
Proof.
  induction template as [|c t IH]; [reflexivity |].
  intros H. simpl in H. apply orb_false_iff in H as [Hc Ht].
  simpl. rewrite Hc. now rewrite IH.
Qed.

Lemma startsWith_cons (x c : ascii) (s q : string) :
  startsWith (String x s) (String c q) = Ascii.eqb c x && startsWith s q.
Proof. reflexivity. Qed.

Lemma indexOf_cons (x : ascii) (s p : string) :
  indexOf (String x s) p
  = if startsWith (String x s) p then Some 0 else option_map S (indexOf s p).
Proof. reflexivity. Qed.

Lemma indexOf_after_plain (c : ascii) (a q b : string) :
  hasChar c a = false ->
  indexOf (a ++ String c q ++ b) (String c q) = Some (String.length a).
Proof.
  intros Ha. induction a as [|x a IH].
  - apply indexOf_here. simpl append at 1. apply (startsWith_append (String c q)).
  - simpl in Ha. apply orb_false_iff in Ha as [Hx Ha].
    change (String x a ++ String c q ++ b) with (String x (a ++ String c q ++ b)).
    rewrite indexOf_cons, startsWith_cons, Ascii.eqb_sym, Hx. simpl andb. cbv iota.
    now rewrite (IH Ha).
Qed.

Lemma replace_at (s p r : string) (i : nat) :
  indexOf s p = Some i ->
  replace s p r
  = sliceTo i s
      ++ getSubstitution p (sliceTo i s) (sliceFrom (i + String.length p) s) r
      ++ sliceFrom (i + String.length p) s.
Proof. intros H. unfold replace. now rewrite H. Qed.

(** A replacement without dollar sign takes the place of the pattern when
    nothing before the pattern starts like it. *)
Lemma replace_plain (c : ascii) (a q b r : string) :
  hasChar c a = false -> hasChar "$" r = false ->
  replace (a ++ String c q ++ b) (String c q) r = a ++ r ++ b.
Proof.
  intros Ha Hr. rewrite (replace_at _ _ _ _ (indexOf_after_plain c a q b Ha)).
  rewrite getSubstitution_plain by exact Hr.
  rewrite sliceTo_append. f_equal. f_equal.
  rewrite <- sliceFrom_sliceFrom, sliceFrom_append.
  apply (sliceFrom_append (String c q)).
Qed.

Lemma numberToString_decimal (n : Z) :
  allChars isDecimalChar (numberToString n) = true.
Proof.
  assert (forall d, allChars isDecimalChar (NilEmpty.string_of_uint d) = true) as Huint
    by (induction d; simpl; auto).
  unfold numberToString, NilZero.string_of_int, NilZero.string_of_uint.
  destruct (Z.to_int n) as [d | d]; destruct d; simpl; auto; apply Huint.
Qed.

Lemma numberToString_nonempty (n : Z) : numberToString n <> EmptyString.
Proof.
  unfold numberToString, NilZero.string_of_int, NilZero.string_of_uint.
  destruct (Z.to_int n) as [d | d]; destruct d; discriminate.
Qed.

Lemma hasChar_allChars (P : ascii -> bool) (c : ascii) (s : string) :
  allChars P s = true -> P c = false -> hasChar c s = false.
Proof.
  intros Hs Hc. induction s as [|x s IH]; [reflexivity |].
  simpl in Hs. apply andb_true_iff in Hs as [Hx Hs]. simpl.
  rewrite (IH Hs), orb_false_r.
  destruct (Ascii.eqb x c) eqn:E; [| reflexivity].
  apply Ascii.eqb_eq in E. congruence.
Qed.

Lemma sizeText_plain (size : option Z) (c : ascii) :
  isDecimalChar c = false ->
  hasChar c (orElse (option_map numberToString size) EmptyString) = false.
Proof.
  intros Hc. destruct size as [n|]; [| reflexivity]. simpl.
  pose proof (numberToString_decimal n) as H.
  destruct (numberToString n) as [|x s]; [reflexivity |].
  now apply (hasChar_allChars isDecimalChar).
Qed.

Lemma buildUrl_base (this : IconInput) :
  buildUrl this = baseUrlOf this ++ "/" ++ pathOf this.
Proof. reflexivity. Qed.

(** A replacement without dollar sign passes over a code unit at which the
    pattern does not start. *)
Lemma replace_cons_skip (x : ascii) (s p r : string) :
  startsWith (String x s) p = false -> hasChar "$" r = false ->
  replace (String x s) p r = String x (replace s p r).
Proof.
  intros Hx Hr. unfold replace. rewrite indexOf_cons, Hx.
  destruct (indexOf s p) as [i|]; [| reflexivity].
  cbn [option_map]. rewrite !getSubstitution_plain by exact Hr. reflexivity.
Qed.

(** It passes over a text without the first code unit of the pattern. *)
Lemma replace_past (c : ascii) (a q s r : string) :
  hasChar c a = false -> hasChar "$" r = false ->
  replace (a ++ s) (String c q) r = a ++ replace s (String c q) r.
Proof.
  intros Ha Hr. induction a as [|x a IH]; [reflexivity |].
  simpl in Ha. apply orb_false_iff in Ha as [Hx Ha].
  change (String x a ++ s) with (String x (a ++ s)).
  rewrite replace_cons_skip; [| | exact Hr].
  - now rewrite (IH Ha).
  - now rewrite startsWith_cons, Ascii.eqb_sym, Hx.
Qed.

(** It passes over a text without brace followed by another placeholder. *)
Lemma replace_past_placeholder (p q a s r : string) :
  isPlaceholder p -> isPlaceholder q -> String.eqb p q = false ->
  hasChar "{" a = false -> hasChar "$" r = false ->
  replace (a ++ q ++ s) p r = a ++ q ++ replace s p r.
Proof.
  intros Hp Hq Hpq Ha Hr.
  destruct Hp as [-> | [-> | ->]]; destruct Hq as [-> | [-> | ->]];
    try (vm_compute in Hpq; discriminate Hpq);
    rewrite (replace_past "{" a _ _ r Ha Hr); f_equal;
    match goal with
    | |- replace (String "{" ?x ++ s) ?p r = _ =>
        change (String "{" x ++ s) with (String "{" (x ++ s));
        rewrite (replace_cons_skip "{" (x ++ s) p r eq_refl Hr);
        rewrite (replace_past "{" x _ s r eq_refl Hr); reflexivity
    end.
Qed.

(** C9. [buildUrl] substitutes the first occurrence of a placeholder only.
    For every template: when {variant}, {size} or {iconName} occurs more
    than once, the URL has at least as many occurrences of it as the
    template has after the first one.  And where the substitution lands:
    when the template is a text [a] without brace, a placeholder, and a
    rest [c], the URL is the base, a slash, [a], the value of that
    placeholder in its place, and then [c] after the replacements of the
    two other placeholders only, so that every later occurrence of the
    same placeholder in [c] stays as it is written.  The values are taken
    without dollar sign, the variant without brace, the size a safe
    integer. *)
Theorem buildUrl_keeps_later_occurrences :
  forall this : IconInput,
    (forall placeholder : string,
        placeholder = "{variant}" \/ placeholder = "{size}" \/ placeholder = "{iconName}" ->
        2 <= occurrences placeholder (RepositoryConfig.pathTemplate (repository this)) ->
        occurrences placeholder (RepositoryConfig.pathTemplate (repository this)) - 1
        <= occurrences placeholder (buildUrl this)
        /\ includes (buildUrl this) placeholder = true)
    /\
    (forall a c : string,
        hasChar "{" a = false ->
        hasChar "$" (variantText this) = false ->
        hasChar "{" (variantText this) = false ->
        hasChar "$" (name this) = false ->
        safeSize this ->
        (RepositoryConfig.pathTemplate (repository this) = a ++ "{variant}" ++ c ->
         buildUrl this
         = baseUrlOf this ++ "/" ++ a ++ variantText this
             ++ replace (replace c "{size}" (sizeText this)) "{iconName}" (name this))
        /\
        (RepositoryConfig.pathTemplate (repository this) = a ++ "{size}" ++ c ->
         buildUrl this
         = baseUrlOf this ++ "/" ++ a ++ sizeText this
             ++ replace (replace c "{variant}" (variantText this)) "{iconName}" (name this))
        /\
        (RepositoryConfig.pathTemplate (repository this) = a ++ "{iconName}" ++ c ->
         buildUrl this
         = baseUrlOf this ++ "/" ++ a ++ name this
             ++ replace (replace c "{variant}" (variantText this)) "{size}" (sizeText this))).
Proof.
  intros this. split.
  - intros p Hp Htwice.
    pose proof (occurrences_pathOf this p Hp) as Hpath.
    rewrite buildUrl_unfold, <- !append_assoc.
    pose proof (occurrences_append_ge p
      (((((("https://raw.githubusercontent.com/" ++
            RepositoryConfig.owner (repository this)) ++ "/") ++
            RepositoryConfig.repo (repository this)) ++ "/") ++
            orElse (RepositoryConfig.branch (repository this)) "main") ++ "/")
      (pathOf this)) as Hge.
    split; [lia |].
    apply occurrences_includes. lia.
  - intros a c Ha Hv Hv' Hname _.
    assert (hasChar "$" (sizeText this) = false) as Hz by (now apply sizeText_plain).
    assert (hasChar "{" (sizeText this) = false) as Hz' by (now apply sizeText_plain).
    assert (isPlaceholder "{variant}") as Pv by (now left).
    assert (isPlaceholder "{size}") as Ps by (right; now left).
    assert (isPlaceholder "{iconName}") as Pn by (right; now right).
    rewrite buildUrl_base. unfold pathOf.
    fold (variantText this). fold (sizeText this).
    split; [| split]; intros ->.
    + rewrite (replace_plain "{" a "variant}" c _ Ha Hv).
      rewrite <- (append_assoc a (variantText this)).
      assert (hasChar "{" (a ++ variantText this) = false) as Hprefix
        by (now rewrite hasChar_append, Ha, Hv').
      rewrite (replace_past "{" _ "size}" c _ Hprefix Hz).
      rewrite (replace_past "{" _ "iconName}" _ _ Hprefix Hname).
      now rewrite append_assoc.
    + rewrite (replace_past_placeholder "{variant}" "{size}" a c _ Pv Ps eq_refl Ha Hv).
      rewrite (replace_plain "{" a "size}" _ _ Ha Hz).
      rewrite <- (append_assoc a (sizeText this)).
      assert (hasChar "{" (a ++ sizeText this) = false) as Hprefix
        by (now rewrite hasChar_append, Ha, Hz').
      rewrite (replace_past "{" _ "iconName}" _ _ Hprefix Hname).
      now rewrite append_assoc.
    + rewrite (replace_past_placeholder "{variant}" "{iconName}" a c _ Pv Pn eq_refl Ha Hv).
      rewrite (replace_past_placeholder "{size}" "{iconName}" a _ _ Ps Pn eq_refl Ha Hz).
      now rewrite (replace_plain "{" a "iconName}" _ _ Ha Hname).
Qed.

Example buildUrl_doubled :
  buildUrl (newIconInput "." "star" "star" None (Some 48%Z) doubledTemplate None None)
  = "https://raw.githubusercontent.com/o/r/main/star/48/{iconName}.svg".
Proof. reflexivity. Qed.

(** In {iconName}/{size}/{iconName}.svg the first {iconName} gets the name
    and the second is still there; with {size} twice, the second {size}
    is. *)
Lemma buildUrl_keeps_later_occurrences_witness :
  buildUrl (newIconInput "." "star" "star" None (Some 48%Z) doubledTemplate None None)
  = "https://raw.githubusercontent.com/o/r/main/star/48/{iconName}.svg"
  /\
  buildUrl (newIconInput "." "star" "star" None (Some 48%Z) doubledSize None None)
  = "https://raw.githubusercontent.com/o/r/main/icons/48/star-{size}.svg".
Proof.
  assert (forall repository : RepositoryConfig.t,
             safeSize (newIconInput "." "star" "star" None (Some 48%Z) repository None None))
    as Hsafe by (intros repository n [= <-]; split; reflexivity).
  split.
  - rewrite (proj2 (proj2 (proj2 (buildUrl_keeps_later_occurrences
               (newIconInput "." "star" "star" None (Some 48%Z) doubledTemplate None None))
               EmptyString "/{size}/{iconName}.svg"
               eq_refl eq_refl eq_refl eq_refl (Hsafe doubledTemplate))) eq_refl).
    reflexivity.
  - rewrite (proj1 (proj2 (proj2 (buildUrl_keeps_later_occurrences
               (newIconInput "." "star" "star" None (Some 48%Z) doubledSize None None))
               "icons/" "/{iconName}-{size}.svg"
               eq_refl eq_refl eq_refl eq_refl (Hsafe doubledSize))) eq_refl).
    reflexivity.
Defined.

(** ** grabSvgText *)

Section Downloader.

Variable network : list string -> string -> FetchOutcome.

Lemma grabSvgText_guard (this : IconInput) (w : World) :
  truthy (svgText this) = true ->
  grabSvgText network this w = (inr tt, this, w).
Proof. intros H. unfold grabSvgText, bind, getThis. now rewrite H. Qed.

Lemma grabSvgText_fetch (this : IconInput) (w : World) :
  truthy (svgText this) = false ->
  grabSvgText network this w =
  match network (requests w) (buildUrl this) with
  | Rejected reason => (inl reason, this, requested (buildUrl this) w)
  | Resolved response =>
      if ok response
      then (inr tt, setSvgText (body response) this, requested (buildUrl this) w)
      else (inl (downloadFailure this response), this,
            warned (downloadFailure this response) (requested (buildUrl this) w))
  end.
Proof.
  intros H. unfold grabSvgText, bind, getThis, fetch. rewrite H.
  destruct (network (requests w) (buildUrl this)) as [reason | response];
    [reflexivity |].
  destruct (ok response); reflexivity.
Qed.

Lemma times_grabSvgText_guard (n : nat) (this : IconInput) (w : World) :
  truthy (svgText this) = true ->
  times n (grabSvgText network) this w = (inr tt, this, w).
Proof.
  intros H. induction n as [|n IH]; [reflexivity |].
  simpl. unfold bind at 1. now rewrite grabSvgText_guard.
Qed.

(** C10. The guard of [grabSvgText] tests truthiness: for an icon whose
    stored text is the empty string, a call requests the URL of the icon
    once more instead of doing nothing. *)
Theorem grabSvgText_refetches_empty_text :
  forall (this : IconInput) (w : World),
    svgText this = Some EmptyString ->
    requests (worldAfter (grabSvgText network this w))
    = (requests w ++ [buildUrl this])%list.
Proof.
  intros this w H. rewrite grabSvgText_fetch by (now rewrite H).
  destruct (network (requests w) (buildUrl this)) as [reason | response];
    [reflexivity |].
  destruct (ok response); reflexivity.
Qed.

(** C3. When the response has a status that is not a success,
    [grabSvgText] throws an error whose message names the icon, the URL,
    the status code and the status text; the message is handed to
    [logError], which prints it, before the error is thrown; the icon is
    left as it was, its text still unset.  When the response is a success,
    the body of the response is stored on the icon. *)
Theorem grabSvgText_response :
  forall (this : IconInput) (w : World) (response : Response),
    truthy (svgText this) = false ->
    network (requests w) (buildUrl this) = Resolved response ->
    (ok response = false ->
       let message :=
         "Failed to download icon " ++ name this ++ " from " ++ buildUrl this ++ ": "
           ++ numberToString (status response) ++ " " ++ statusText response in
       let result := grabSvgText network this w in
       completionOf result = inl message /\
       warnings (worldAfter result) = (warnings w ++ [message])%list /\
       iconAfter result = this /\
       truthy (svgText (iconAfter result)) = false)
    /\
    (ok response = true ->
       let result := grabSvgText network this w in
       completionOf result = inr tt /\
       svgText (iconAfter result) = Some (body response) /\
       warnings (worldAfter result) = warnings w).
Proof.
  intros this w response Hguard Hnet.
  rewrite grabSvgText_fetch by exact Hguard. rewrite Hnet.
  split; intros Hok; rewrite Hok; cbv zeta; simpl; auto.
Qed.

(** C2, amended. For every icon whose stored text is a non-empty string, a
    call of [grabSvgText] requests nothing and leaves the icon, its text
    included, and the world as they are, and so does any number of calls in
    a row; hence once a call has stored a non-empty body, the calls that
    follow request nothing more: that text was requested once. *)
Theorem grabSvgText_cached :
  (forall (this : IconInput) (w : World),
      truthy (svgText this) = true ->
      grabSvgText network this w = (inr tt, this, w) /\
      forall n : nat, times n (grabSvgText network) this w = (inr tt, this, w))
  /\
  (forall (this : IconInput) (w : World) (response : Response),
      truthy (svgText this) = false ->
      network (requests w) (buildUrl this) = Resolved response ->
      ok response = true ->
      truthy (Some (body response)) = true ->
      forall n : nat,
        let result := times (S n) (grabSvgText network) this w in
        completionOf result = inr tt /\
        svgText (iconAfter result) = Some (body response) /\
        requests (worldAfter result) = (requests w ++ [buildUrl this])%list).
Proof.
  split.
  - intros this w H. split; [now apply grabSvgText_guard |].
    intros n. now apply times_grabSvgText_guard.
  - intros this w response Hguard Hnet Hok Hbody n. cbv zeta.
    assert (times (S n) (grabSvgText network) this w
            = (inr tt, setSvgText (body response) this, requested (buildUrl this) w))
      as ->.
    { simpl. unfold bind at 1.
      rewrite grabSvgText_fetch by exact Hguard. rewrite Hnet, Hok.
      now apply times_grabSvgText_guard. }
    repeat split.
Qed.

End Downloader.

Lemma grabSvgText_refetches_empty_text_witness :
  requests (worldAfter (grabSvgText (serverSays (found "<svg/>"))
                          (setSvgText EmptyString settings) emptyWorld))
  = ["https://raw.githubusercontent.com/lucide-icons/lucide/main/icons/settings.svg"].
Proof.
  rewrite (grabSvgText_refetches_empty_text (serverSays (found "<svg/>"))
             (setSvgText EmptyString settings) emptyWorld); reflexivity.
Defined.

Lemma grabSvgText_response_witness :
  completionOf (grabSvgText (serverSays notFound) settings emptyWorld)
  = inl "Failed to download icon settings from https://raw.githubusercontent.com/lucide-icons/lucide/main/icons/settings.svg: 404 Not Found"
  /\ svgText (iconAfter (grabSvgText (serverSays (found "<svg/>")) settings emptyWorld))
     = Some "<svg/>".
Proof.
  split.
  - apply (proj1 (grabSvgText_response (serverSays notFound) settings emptyWorld notFound
                    eq_refl eq_refl) eq_refl).
  - apply (proj2 (grabSvgText_response (serverSays (found "<svg/>")) settings emptyWorld
                    (found "<svg/>") eq_refl eq_refl) eq_refl).
Defined.

(** C2 as stated fails on an icon whose stored text is the empty string: the
    text is populated, and the call requests the URL. *)
Lemma grabSvgText_populated_counterexample :
  ~ (forall (network : list string -> string -> FetchOutcome)
            (this : IconInput) (w : World) (text : string),
        svgText this = Some text ->
        requests (worldAfter (grabSvgText network this w)) = requests w /\
        svgText (iconAfter (grabSvgText network this w)) = Some text).
Proof.
  intros H.
  destruct (H (serverSays (found "<svg/>")) (setSvgText EmptyString settings)
              emptyWorld EmptyString eq_refl) as [Hreq _].
  discriminate Hreq.
Qed.

(** The same icon over two calls against a server that answers with an empty
    body: both calls request the URL. *)
Example grabSvgText_fetches_twice :
  requests (worldAfter (times 2 (grabSvgText (serverSays (found EmptyString)))
                          settings emptyWorld))
  = [buildUrl settings; buildUrl settings].
Proof. reflexivity. Qed.

Lemma grabSvgText_cached_witness :
  grabSvgText (serverSays notFound) (setSvgText "<svg>existing</svg>" settings) emptyWorld
  = (inr tt, setSvgText "<svg>existing</svg>" settings, emptyWorld)
  /\ requests (worldAfter (times 3 (grabSvgText (serverSays (found "<svg/>")))
                             settings emptyWorld))
     = [buildUrl settings].
Proof.
  split.
  - apply (proj1 (grabSvgText_cached (serverSays notFound))
             (setSvgText "<svg>existing</svg>" settings) emptyWorld eq_refl).
  - apply (proj2 (grabSvgText_cached (serverSays (found "<svg/>")))
             settings emptyWorld (found "<svg/>") eq_refl eq_refl eq_refl eq_refl 2).
Defined.

(** ** saveToFile *)

Section Writer.

Variable dirname : string -> string.

Lemma saveToFile_unfold (this : IconInput) (w : World) :
  saveToFile dirname this w =
  if truthy (svgText this)
  then (inr tt, this,
        {| requests := requests w; warnings := warnings w;
           files := <[ filePathOf this := default EmptyString (svgText this) ]> (files w);
           directories := {[ dirname (filePathOf this) ]} ∪ directories w |})
  else (inl ("Icon data is not downloaded for " ++ name this), this, w).
Proof.
  unfold saveToFile, bind, getThis, filePathOf.
  destruct (truthy (svgText this)); reflexivity.
Qed.


End Writer.


(** ** processSvgForReact on the inputs of the test suite *)

Example xml_declaration_removed :
  includes
    (processedMarkup ("<?xml version=" ++ DQ ++ "1.0" ++ DQ ++ " encoding=" ++ DQ ++ "UTF-8"
                        ++ DQ ++ "?><svg><path d=" ++ DQ ++ "M0 0" ++ DQ ++ "/></svg>"))
    "<?xml" = false.
Proof. vm_compute. reflexivity. Qed.

Example kebab_case_renamed :
  let processed :=
    processedMarkup ("<svg stroke-width=" ++ DQ ++ "2" ++ DQ ++ " stroke-linecap=" ++ DQ
                       ++ "round" ++ DQ ++ " fill-rule=" ++ DQ ++ "evenodd" ++ DQ
                       ++ "><path/></svg>") in
  includes processed "strokeWidth" = true /\
  includes processed "strokeLinecap" = true /\
  includes processed "fillRule" = true /\
  includes processed "stroke-width" = false.
Proof. vm_compute. repeat split. Qed.

(** ** transform and the name of the component *)

Lemma includes_append_r (a b p : string) :
  includes b p = true -> includes (a ++ b) p = true.
Proof.
  intros H. apply includes_iff in H as (u & v & ->).
  apply includes_iff. exists (a ++ u), v. now rewrite append_assoc.
Qed.

Lemma includes_append_l (a b p : string) :
  includes a p = true -> includes (a ++ b) p = true.
Proof.
  intros H. apply includes_iff in H as (u & v & ->).
  apply includes_iff. exists u, (v ++ b). now rewrite !append_assoc.
Qed.

(** C1. The name that [transform] derives from the file name (check-icon
    gives CheckIcon) does not reach the generated source:
    [processSvgForReact] returns the same text whatever name it is given,
    and that text always declares the component as BootstrapHeart; for the
    icon saved as check-icon the source names BootstrapHeart and does not
    contain CheckIcon. *)
Theorem transform_drops_component_name :
  componentNameOf "check-icon" = "CheckIcon" /\
  (forall (this : IconInput) (name1 name2 : string),
      processSvgForReact this name1 = processSvgForReact this name2) /\
  (forall (this : IconInput) (componentName : string),
      match processSvgForReact this componentName with
      | inr source => includes source "export default function BootstrapHeart({" = true
      | inl _ => True
      end) /\
  (exists source : string,
      transform checkIcon = (inr tt, setSvgText source checkIcon) /\
      includes source "export default function BootstrapHeart({" = true /\
      includes source "CheckIcon" = false).
Proof.
  split; [reflexivity |]. split; [reflexivity |]. split.
  - intros this componentName. unfold processSvgForReact.
    destruct (negb (truthy (svgText this))); [exact I |].
    unfold componentSource. apply includes_append_l. reflexivity.
  - eexists. split; [reflexivity |]. split; vm_compute; reflexivity.
Qed.

(** ** Patterns of the form opening, run without a stop, stop *)

Lemma hasChar_sliceFrom (c : ascii) (n : nat) (s : string) :
  hasChar c s = false -> hasChar c (sliceFrom n s) = false.
Proof.
  revert s; induction n as [|n IH]; intros [|x s]; simpl; try easy.
  intros H. apply orb_false_iff in H as [_ H]. now apply IH.
Qed.

Lemma replaceAll_match_any (m : matcher) (r : string) (c : ascii) (s : string) (n : nat) :
  m (String c s) = Some n ->
  replaceAll m r (String c s) = r ++ replaceAll m r (sliceFrom (Nat.pred n) s).
Proof.
  intros H. unfold replaceAll at 1. simpl. rewrite H.
  now rewrite replaceAllFrom_skip.
Qed.

Lemma length_sliceFrom (n : nat) (s : string) :
  String.length (sliceFrom n s) = String.length s - n.
Proof.
  revert s; induction n as [|n IH]; intros [|c s]; simpl; try reflexivity.
  apply IH.
Qed.

(** A match is never empty and never longer than the text. *)
Lemma closing_at_run (stop : ascii) (x : string) :
  startsWith (sliceFrom (runWithout stop x) x) (String stop EmptyString)
  = hasChar stop x.
Proof.
  induction x as [|c x IH]; simpl; [reflexivity |].
  destruct (Ascii.eqb c stop) eqn:E; simpl.
  - rewrite Ascii.eqb_sym, E. reflexivity.
  - exact IH.
Qed.

Lemma delimited_spec (opening : string) (stop : ascii) (s : string) :
  delimited opening stop (String stop EmptyString) s =
  if startsWith s opening && hasChar stop (sliceFrom (String.length opening) s)
  then Some (String.length opening
             + runWithout stop (sliceFrom (String.length opening) s) + 1)
  else None.
Proof.
  unfold delimited. cbv zeta. rewrite closing_at_run.
  destruct (startsWith s opening); [| reflexivity].
  destruct (hasChar stop (sliceFrom (String.length opening) s)); reflexivity.
Qed.

Section QuotedValue.

(** The pattern reads: the text [before], the code unit [stop], a run
    without [stop], and [stop] again; the replacement [r] holds no [stop]
    and ends with a code unit [e] that [before] does not hold. *)
Variables (before r : string) (stop e : ascii).
Hypothesis r_without_stop : hasChar stop r = false.
Hypothesis r_last : lastChar r = Some e.
Hypothesis before_without_e : hasChar e before = false.


Lemma replacement_not_opening (r' q X : string) (d : ascii) :
  hasChar stop r' = false -> lastChar r' = Some d -> hasChar d q = false ->
  startsWith (r' ++ X) (q ++ String stop EmptyString) = false.
Proof.
  revert q; induction r' as [|c r' IH]; intros q Hstop Hlast Hq; [discriminate |].
  simpl in Hstop. apply orb_false_iff in Hstop as [Hc Hstop].
  destruct q as [|x q]; simpl.
  - rewrite Ascii.eqb_sym, Hc. reflexivity.
  - simpl in Hq. apply orb_false_iff in Hq as [Hx Hq].
    destruct r' as [|c' r'].
    + injection Hlast as <-. now rewrite Hx.
    + rewrite (IH q Hstop Hlast Hq). apply andb_false_r.
Qed.

(** An opening that the result of the replacement starts with was in the
    text already. *)
Lemma opening_transfer (s q : string) :
  hasChar e q = false ->
  startsWith (replaceAll (quoted before stop) r s) (q ++ String stop EmptyString) = true ->
  startsWith s (q ++ String stop EmptyString) = true.
Proof.
  revert q; induction s as [|c s IH]; intros q Hq; [easy |].
  destruct (quoted before stop (String c s)) as [n|] eqn:E.
  - rewrite (replaceAll_match_any _ _ _ _ _ E).
    now rewrite (replacement_not_opening r q _ e).
  - rewrite (replaceAll_no_match _ _ _ _ E).
    destruct q as [|x q]; simpl; [easy |].
    simpl in Hq. apply orb_false_iff in Hq as [_ Hq].
    intros H. apply andb_true_iff in H as [-> H]. simpl.
    now apply IH.
Qed.

(** Without a [stop] from the place where the opening would end, nothing
    matches. *)
Lemma unmatched_without_stop (x : string) :
  hasChar stop (sliceFrom (String.length before) x) = false ->
  matchesIn (quoted before stop) x = false.
Proof.
  induction x as [|c x IH]; intros H.
  - simpl. unfold quoted. rewrite delimited_spec.
    destruct before; reflexivity.
  - assert (quoted before stop (String c x) = None) as E.
    { unfold quoted. rewrite delimited_spec.
      destruct (startsWith (String c x) (before ++ String stop EmptyString)) eqn:S;
        [| reflexivity].
      apply startsWith_inv in S. rewrite append_assoc in S.
      rewrite S, sliceFrom_append in H. simpl in H.
      now rewrite Ascii.eqb_refl in H. }
    simpl. rewrite E. apply IH.
    destruct (String.length before) as [|k]; simpl in H.
    + apply orb_false_iff in H as [_ H]. now destruct x.
    + replace (S k) with (k + 1) by lia. rewrite <- sliceFrom_sliceFrom.
      now apply hasChar_sliceFrom.
Qed.

Lemma unmatched_after_opening (s : string) :
  startsWith s (before ++ String stop EmptyString) = true ->
  quoted before stop s = None ->
  matchesIn (quoted before stop) s = false.
Proof.
  intros Hs E. destruct s as [|c s]; [simpl; now rewrite E |].
  simpl. rewrite E. apply unmatched_without_stop.
  unfold quoted in E. rewrite delimited_spec, Hs in E. simpl in E.
  destruct (hasChar stop
              (sliceFrom (String.length (before ++ String stop EmptyString)) (String c s)))
    eqn:H; [discriminate |].
  rewrite length_append in H. simpl in H.
  replace (String.length before + 1) with (S (String.length before)) in H by lia.
  exact H.
Qed.

Lemma unmatched_after_replacement (r' Y : string) (d : ascii) :
  hasChar stop r' = false ->
  (r' = EmptyString \/ (lastChar r' = Some d /\ hasChar d before = false)) ->
  matchesIn (quoted before stop) Y = false ->
  matchesIn (quoted before stop) (r' ++ Y) = false.
Proof.
  intros Hstop Hlast HY. induction r' as [|c r' IH]; [exact HY |].
  destruct Hlast as [Hnil | [Hlast Hd]]; [discriminate |].
  assert (quoted before stop (String c r' ++ Y) = None) as E.
  { unfold quoted. rewrite delimited_spec.
    now rewrite (replacement_not_opening (String c r') before Y d). }
  change (String c r' ++ Y) with (String c (r' ++ Y)) in *.
  simpl. rewrite E. simpl in Hstop. apply orb_false_iff in Hstop as [_ Hstop].
  apply IH; [exact Hstop |].
  destruct r' as [|c' r']; [now left | right; split; assumption].
Qed.

(** After the global replacement no match of the pattern is left. *)
Lemma replaceAll_quoted_complete (s : string) :
  matchesIn (quoted before stop) (replaceAll (quoted before stop) r s) = false.
Proof.
  remember (String.length s) as len eqn:Hlen.
  revert s Hlen; induction len as [len IH] using lt_wf_ind; intros s Hlen.
  destruct s as [|c s]; [subst; simpl; unfold quoted; rewrite delimited_spec;
                         destruct before; reflexivity |].
  destruct (quoted before stop (String c s)) as [n|] eqn:E.
  - rewrite (replaceAll_match_any _ _ _ _ _ E).
    apply (unmatched_after_replacement r _ e); [exact r_without_stop | now right |].
    apply (IH (String.length (sliceFrom (Nat.pred n) s))); [| reflexivity].
    rewrite length_sliceFrom. subst len. simpl. lia.
  - rewrite (replaceAll_no_match _ _ _ _ E).
    assert (matchesIn (quoted before stop) (replaceAll (quoted before stop) r s) = false)
      as Htail by (apply (IH (String.length s)); [subst; simpl; lia | reflexivity]).
    simpl. rewrite Htail.
    destruct (quoted before stop (String c (replaceAll (quoted before stop) r s)))
      as [n|] eqn:E'; [| now destruct (replaceAll (quoted before stop) r s)].
    exfalso.
    rewrite <- (replaceAll_no_match _ r _ _ E) in E'.
    assert (startsWith (replaceAll (quoted before stop) r (String c s))
              (before ++ String stop EmptyString) = true) as Hopen.
    { unfold quoted in E'. rewrite delimited_spec in E'.
      destruct (startsWith _ _); [reflexivity | discriminate]. }
    apply opening_transfer in Hopen; [| exact before_without_e].
    pose proof (unmatched_after_opening _ Hopen E) as Hnone.
    rewrite (replaceAll_unmatched _ r _ Hnone), E in E'. discriminate.
Qed.

End QuotedValue.

(** ** The leftmost replacement of a literal *)

Lemma replaceFirst_literal_at (p : string) (f : string -> string) (s : string) (i : nat) :
  indexOf s p = Some i ->
  replaceFirst (literal p) f s = sliceTo i s ++ f p ++ sliceFrom (i + String.length p) s.
Proof.
  revert i; induction s as [|c s IH]; intros i; simpl; unfold literal.
  - destruct (startsWith EmptyString p) eqn:E; [| discriminate].
    intros [= <-]. destruct p; [reflexivity | discriminate].
  - fold (literal p). destruct (startsWith (String c s) p) eqn:E.
    + intros [= <-]. simpl.
      rewrite (startsWith_inv _ _ E) at 1 2.
      now rewrite sliceTo_append, sliceFrom_append.
    + destruct (indexOf s p) as [j|]; simpl; [| discriminate].
      intros [= <-]. simpl. f_equal. now apply IH.
Qed.

Lemma replaceFirst_literal_none (p : string) (f : string -> string) (s : string) :
  indexOf s p = None -> replaceFirst (literal p) f s = s.
Proof.
  induction s as [|c s IH]; simpl; unfold literal.
  - destruct (startsWith EmptyString p); [discriminate | reflexivity].
  - fold (literal p). destruct (startsWith (String c s) p); [discriminate |].
    destruct (indexOf s p); [discriminate |].
    intros _. f_equal. now apply IH.
Qed.

Lemma replaceAll_includes (m : matcher) (r s : string) :
  m EmptyString = None ->
  matchesIn m s = true -> includes (replaceAll m r s) r = true.
Proof.
  intros Hnil. induction s as [|c s IH]; simpl.
  - now rewrite Hnil.
  - destruct (m (String c s)) as [n|] eqn:E.
    + intros _. rewrite (replaceAll_match_any _ _ _ _ _ E).
      apply includes_here, startsWith_append.
    + intros H. rewrite (replaceAll_no_match _ _ _ _ E).
      apply includes_later. now apply IH.
Qed.

(** ** width and height *)

Lemma includes_hasChar (s p : string) (c : ascii) :
  hasChar c s = false -> hasChar c p = true -> includes s p = false.
Proof.
  intros Hs Hp. destruct (includes s p) eqn:E; [| reflexivity].
  apply includes_iff in E as (a & b & ->).
  rewrite !hasChar_append, Hp in Hs. now rewrite orb_true_r in Hs.
Qed.

(** C5, amended. If the text contains [width=], every occurrence of the
    attribute [width] with a value between double quotes is replaced by
    [width={width}], none is left, and nothing is injected; if the text does
    not contain [width=], then [width={width}] is injected right after the
    first [<svg] of the text, and a text without [<svg] is left as it is.
    The same holds for [height] on the text that the width step returns.
    In particular, for the input [<svg width=.24. height=.24.>] with double
    quotes around 24, the output contains [width={width}] and
    [height={height}] and neither of the two attributes with the value 24. *)
Theorem width_and_height_props :
  (forall t : string,
      includes t "width=" = true ->
      widthProp t = replaceAll widthAttribute "width={width}" t /\
      matchesIn widthAttribute (widthProp t) = false /\
      (matchesIn widthAttribute t = true -> includes (widthProp t) "width={width}" = true))
  /\
  (forall t : string,
      includes t "width=" = false ->
      match indexOf t "<svg" with
      | Some i => widthProp t = sliceTo i t ++ "<svg width={width}" ++ sliceFrom (i + 4) t
      | None => widthProp t = t
      end)
  /\
  (forall t : string,
      includes t "height=" = true ->
      heightProp t = replaceAll heightAttribute "height={height}" t /\
      matchesIn heightAttribute (heightProp t) = false /\
      (matchesIn heightAttribute t = true -> includes (heightProp t) "height={height}" = true))
  /\
  (forall t : string,
      includes t "height=" = false ->
      match indexOf t "<svg" with
      | Some i => heightProp t = sliceTo i t ++ "<svg height={height}" ++ sliceFrom (i + 4) t
      | None => heightProp t = t
      end)
  /\
  (forall (this : IconInput) (componentName : string),
      svgText this = Some svg24 ->
      hasChar dquote (name this) = false ->
      exists source : string,
        processSvgForReact this componentName = inr source /\
        includes source "width={width}" = true /\
        includes source "height={height}" = true /\
        includes source ("width=" ++ DQ ++ "24" ++ DQ) = false /\
        includes source ("height=" ++ DQ ++ "24" ++ DQ) = false /\
        includes (processedMarkup svg24) "24" = false).
Proof.
  split; [| split; [| split; [| split]]].
  - intros t Ht. unfold widthProp. rewrite Ht. split; [reflexivity |]. split.
    + apply (replaceAll_quoted_complete "width=" "width={width}" dquote "}");
        reflexivity.
    + now apply replaceAll_includes.
  - intros t Ht. unfold widthProp, svgTag. rewrite Ht.
    destruct (indexOf t "<svg") as [i|] eqn:E.
    + now rewrite (replaceFirst_literal_at _ _ _ _ E).
    + now apply replaceFirst_literal_none.
  - intros t Ht. unfold heightProp. rewrite Ht. split; [reflexivity |]. split.
    + apply (replaceAll_quoted_complete "height=" "height={height}" dquote "}");
        reflexivity.
    + now apply replaceAll_includes.
  - intros t Ht. unfold heightProp, svgTag. rewrite Ht.
    destruct (indexOf t "<svg") as [i|] eqn:E.
    + now rewrite (replaceFirst_literal_at _ _ _ _ E).
    + now apply replaceFirst_literal_none.
  - intros this componentName Htext Hname. eexists.
    unfold processSvgForReact. rewrite Htext. simpl truthy. simpl negb. cbv iota.
    split; [reflexivity |].
    simpl default.
    replace (processedMarkup svg24)
      with ("<svg {...rest} width={width} height={height}>" ++ titleElement)
      by (vm_compute; reflexivity).
    unfold componentSource.
    split; [| split; [| split; [| split]]].
    + apply includes_append_r, includes_append_r, includes_append_r,
        includes_append_l. reflexivity.
    + apply includes_append_r, includes_append_r, includes_append_r,
        includes_append_l. reflexivity.
    + apply (includes_hasChar _ _ dquote); [| reflexivity].
      rewrite !hasChar_append, Hname. reflexivity.
    + apply (includes_hasChar _ _ dquote); [| reflexivity].
      rewrite !hasChar_append, Hname. reflexivity.
    + reflexivity.
Qed.

Lemma width_and_height_props_witness :
  exists source : string,
    processSvgForReact icon24 "Test" = inr source /\
    includes source "width={width}" = true /\
    includes source "height={height}" = true /\
    includes source ("width=" ++ DQ ++ "24" ++ DQ) = false /\
    includes source ("height=" ++ DQ ++ "24" ++ DQ) = false /\
    includes (processedMarkup svg24) "24" = false.
Proof.
  apply (proj2 (proj2 (proj2 (proj2 width_and_height_props))) icon24 "Test");
    reflexivity.
Defined.

(** C5 as stated fails on a text whose [width] has its value between single
    quotes: no attribute [width] with a value between double quotes exists,
    the text has a root tag, and [width={width}] is not injected. *)
Lemma width_single_quotes_counterexample :
  ~ (forall t : string,
        (matchesIn widthAttribute t = true ->
           matchesIn widthAttribute (widthProp t) = false) /\
        (matchesIn widthAttribute t = false ->
           includes t "<svg" = true ->
           includes (widthProp t) "<svg width={width}" = true)).
Proof.
  intros H.
  destruct (H "<svg width='24' viewBox='0 0 24 24'><path d='M0 0'/></svg>") as [_ Hinject].
  specialize (Hinject eq_refl eq_refl). discriminate Hinject.
Qed.

(** On that text the whole output is without [width={width}]. *)
Example width_single_quotes_output :
  includes
    (componentSource "test"
       (processedMarkup "<svg width='24' viewBox='0 0 24 24'><path d='M0 0'/></svg>"))
    "width={width}" = false.
Proof. vm_compute. reflexivity. Qed.

(** ** A global replacement splits where no match can cross *)

Lemma startsWith_length (s p : string) :
  startsWith s p = true -> String.length p <= String.length s.
Proof.
  intros H. rewrite (startsWith_inv _ _ H), length_append. lia.
Qed.

Lemma sliceFrom_append_le (n : nat) (x y : string) :
  n <= String.length x -> sliceFrom n (x ++ y) = sliceFrom n x ++ y.
Proof.
  revert x; induction n as [|n IH]; intros [|c x]; simpl; intros H;
    try reflexivity; try lia.
  apply IH. lia.
Qed.

Lemma runWithout_append (stop : ascii) (z y : string) :
  hasChar stop z = true -> runWithout stop (z ++ y) = runWithout stop z.
Proof.
  induction z as [|c z IH]; simpl; [discriminate |].
  destruct (Ascii.eqb c stop); simpl; [reflexivity |].
  intros H. now rewrite IH.
Qed.

Lemma runWithout_lt (stop : ascii) (z : string) :
  hasChar stop z = true -> runWithout stop z < String.length z.
Proof.
  induction z as [|c z IH]; simpl; [discriminate |].
  destruct (Ascii.eqb c stop); simpl; [lia |].
  intros H. specialize (IH H). lia.
Qed.

Lemma runWithout_full (stop : ascii) (z y : string) :
  hasChar stop z = false -> runWithout stop (z ++ String stop y) = String.length z.
Proof.
  induction z as [|c z IH]; simpl.
  - now rewrite Ascii.eqb_refl.
  - intros H. apply orb_false_iff in H as [-> H]. now rewrite IH.
Qed.

Lemma closesWithin_sliceFrom (before : string) (stop : ascii) (n : nat) (x : string) :
  closesWithin before stop x = true ->
  closesWithin before stop (sliceFrom n x) = true.
Proof.
  revert x; induction n as [|n IH]; intros [|c x] H; try exact H.
  simpl sliceFrom. apply IH.
  simpl in H. apply andb_true_iff in H as [_ H]. exact H.
Qed.

Lemma lastChar_append_cons (u : string) (c : ascii) (v : string) :
  lastChar (u ++ String c v) = lastChar (String c v).
Proof.
  induction u as [|d u IH]; [reflexivity |].
  change (String d u ++ String c v) with (String d (u ++ String c v)).
  simpl lastChar at 1. destruct (u ++ String c v) eqn:E; [| exact IH].
  now destruct u.
Qed.

(** A text without the last code unit of [x] that starts [x y] starts [x]. *)
Lemma startsWith_within (e : ascii) (w x y : string) :
  lastChar x = Some e -> hasChar e w = false ->
  startsWith (x ++ y) w = true -> startsWith x w = true.
Proof.
  revert x; induction w as [|c w IH]; intros x; simpl; [reflexivity |].
  intros Hlast Hw. apply orb_false_iff in Hw as [Hc Hw].
  destruct x as [|b x]; [discriminate |]. simpl.
  intros H. apply andb_true_iff in H as [Hb H]. rewrite Hb. simpl.
  destruct x as [|b' x].
  - injection Hlast as <-. apply Ascii.eqb_eq in Hb. subst b.
    now rewrite Ascii.eqb_refl in Hc.
  - now apply IH.
Qed.

Section Splitting.

Variables (before : string) (stop : ascii) (r : string).

Lemma noCrossing_sliceFrom (n : nat) (x y : string) :
  noCrossing before stop x y -> noCrossing before stop (sliceFrom n x) y.
Proof.
  intros H u c v Hx. apply (H (sliceTo n x ++ u)).
  now rewrite append_assoc, <- Hx, slice_split.
Qed.

Lemma noCrossing_first (d : ascii) (x y : string) :
  hasChar d (before ++ String stop EmptyString) = false ->
  noCrossing before stop x (String d y).
Proof. intros Hd u c v _. now apply startsWith_before_char. Qed.

Lemma noCrossing_last (e : ascii) (x y : string) :
  lastChar x = Some e ->
  hasChar e (before ++ String stop EmptyString) = false ->
  noCrossing before stop x y.
Proof.
  intros Hlast He u c v Hx. apply (startsWith_within e); [| exact He].
  now rewrite <- (lastChar_append_cons u c v), <- Hx.
Qed.

Lemma replaceAll_quoted_split (x y : string) :
  closesWithin before stop x = true ->
  noCrossing before stop x y ->
  replaceAll (quoted before stop) r (x ++ y)
  = replaceAll (quoted before stop) r x ++ replaceAll (quoted before stop) r y.
Proof.
  remember (String.length x) as len eqn:Hlen.
  revert x Hlen; induction len as [len IH] using lt_wf_ind; intros x Hlen Hclosed Hcross.
  destruct x as [|c x]; [reflexivity |].
  change (String c x ++ y) with (String c (x ++ y)).
  destruct (startsWith (String c x ++ y) (before ++ String stop EmptyString)) eqn:Hopen.
  - pose proof (Hcross EmptyString c x eq_refl Hopen) as Hopen'.
    pose proof Hclosed as Hstop. simpl in Hstop. simpl in Hopen'. rewrite Hopen' in Hstop.
    apply andb_true_iff in Hstop as [Hstop _].
    pose proof (startsWith_length _ _ Hopen') as Hlen'.
    rewrite length_append in Hlen'. simpl in Hlen'.
    set (z := sliceFrom (String.length (before ++ String stop EmptyString)) (String c x)).
    assert (hasChar stop z = true) as Hz.
    { subst z. rewrite length_append. simpl String.length.
      replace (String.length before + 1) with (S (String.length before)) by lia.
      exact Hstop. }
    set (n := String.length (before ++ String stop EmptyString) + runWithout stop z + 1).
    assert (quoted before stop (String c x) = Some n) as E.
    { unfold quoted. rewrite delimited_spec. fold z. simpl startsWith.
      now rewrite Hopen', Hz. }
    assert (quoted before stop (String c (x ++ y)) = Some n) as E'.
    { unfold quoted. rewrite delimited_spec.
      change (String c (x ++ y)) with (String c x ++ y). rewrite Hopen.
      rewrite sliceFrom_append_le by (rewrite length_append; simpl; lia).
      fold z. rewrite hasChar_append, Hz. simpl.
      now rewrite runWithout_append. }
    rewrite (replaceAll_match_any _ _ _ _ _ E), (replaceAll_match_any _ _ _ _ _ E').
    rewrite append_assoc. f_equal.
    pose proof (runWithout_lt stop z Hz) as Hrun.
    assert (String.length z = String.length (String c x)
                              - String.length (before ++ String stop EmptyString)) as Hzlen
      by (subst z; apply length_sliceFrom).
    simpl String.length in Hzlen. rewrite length_append in Hzlen. simpl in Hzlen.
    assert (Nat.pred n <= String.length x) as Hn
      by (subst n; rewrite length_append; simpl; lia).
    rewrite sliceFrom_append_le by exact Hn.
    apply (IH (String.length (sliceFrom (Nat.pred n) x))); [| reflexivity | |].
    + rewrite length_sliceFrom. subst len. simpl. lia.
    + change (sliceFrom (Nat.pred n) x) with (sliceFrom (S (Nat.pred n)) (String c x)).
      now apply closesWithin_sliceFrom.
    + change (sliceFrom (Nat.pred n) x) with (sliceFrom (S (Nat.pred n)) (String c x)).
      now apply noCrossing_sliceFrom.
  - assert (quoted before stop (String c (x ++ y)) = None) as E'.
    { unfold quoted. rewrite delimited_spec.
      change (String c (x ++ y)) with (String c x ++ y). now rewrite Hopen. }
    assert (quoted before stop (String c x) = None) as E.
    { unfold quoted. rewrite delimited_spec.
      destruct (startsWith (String c x) (before ++ String stop EmptyString)) eqn:S;
        [| reflexivity].
      now rewrite (startsWith_extend _ _ y S) in Hopen. }
    rewrite (replaceAll_no_match _ _ _ _ E), (replaceAll_no_match _ _ _ _ E').
    change (String c (replaceAll (quoted before stop) r x) ++ replaceAll (quoted before stop) r y)
      with (String c (replaceAll (quoted before stop) r x ++ replaceAll (quoted before stop) r y)).
    f_equal.
    apply (IH (String.length x)); [subst; simpl; lia | reflexivity | |].
    + change x with (sliceFrom 1 (String c x)). now apply closesWithin_sliceFrom.
    + change x with (sliceFrom 1 (String c x)). now apply noCrossing_sliceFrom.
Qed.

End Splitting.

(** ** The first opening tag *)

Lemma startsWith_tail_irrelevant (p y t t' : string) :
  String.length p <= String.length y ->
  startsWith (y ++ t) p = startsWith (y ++ t') p.
Proof.
  revert y; induction p as [|d p IH]; intros y; [reflexivity |].
  destruct y as [|c y]; simpl; [lia |].
  intros H. f_equal. apply IH. lia.
Qed.

(** Where the first occurrence of [p] is does not depend on what follows
    it. *)
Lemma indexOf_tail_irrelevant (p a t t' : string) :
  indexOf (a ++ p ++ t) p = Some (String.length a) ->
  indexOf (a ++ p ++ t') p = Some (String.length a).
Proof.
  induction a as [|c a IH]; intros H.
  - simpl append. apply indexOf_here, startsWith_append.
  - change (String c a ++ p ++ t) with (String c (a ++ p ++ t)) in H.
    change (String c a ++ p ++ t') with (String c (a ++ p ++ t')).
    simpl in H |- *.
    assert (startsWith (String c (a ++ p ++ t')) p = startsWith (String c (a ++ p ++ t)) p)
      as ->.
    { change (String c (a ++ p ++ t')) with (String c a ++ p ++ t').
      change (String c (a ++ p ++ t)) with (String c a ++ p ++ t).
      rewrite <- !append_assoc.
      apply startsWith_tail_irrelevant. rewrite length_append. simpl. lia. }
    destruct (startsWith (String c (a ++ p ++ t)) p); [discriminate |].
    destruct (indexOf (a ++ p ++ t) p) as [j|] eqn:E; [| discriminate].
    simpl in H. injection H as ->. now rewrite IH.
Qed.

Lemma replaceFirst_delimited_at (opening : string) (stop : ascii)
    (f : string -> string) (a run b : string) :
  indexOf (a ++ opening ++ run ++ String stop b) opening = Some (String.length a) ->
  hasChar stop run = false ->
  replaceFirst (delimited opening stop (String stop EmptyString)) f
    (a ++ opening ++ run ++ String stop b)
  = a ++ f (opening ++ run ++ String stop EmptyString) ++ b.
Proof.
  intros Hfirst Hrun. induction a as [|c a IH].
  - simpl append.
    assert (delimited opening stop (String stop EmptyString) (opening ++ run ++ String stop b)
            = Some (String.length (opening ++ run ++ String stop EmptyString))) as E.
    { rewrite delimited_spec, startsWith_append, sliceFrom_append.
      rewrite hasChar_append. simpl hasChar. rewrite Ascii.eqb_refl, orb_true_r. simpl andb.
      rewrite (runWithout_full _ _ _ Hrun), !length_append. simpl. f_equal. lia. }
    assert (opening ++ run ++ String stop b
            = (opening ++ run ++ String stop EmptyString) ++ b) as Hsplit
      by (now rewrite !append_assoc).
    destruct (opening ++ run ++ String stop b) as [|x s] eqn:Hs.
    + destruct opening; discriminate.
    + simpl replaceFirst. rewrite E. rewrite Hsplit.
      now rewrite sliceTo_append, sliceFrom_append.
  - change (String c a ++ opening ++ run ++ String stop b)
      with (String c (a ++ opening ++ run ++ String stop b)) in *.
    simpl in Hfirst.
    destruct (startsWith (String c (a ++ opening ++ run ++ String stop b)) opening) eqn:S;
      [discriminate |].
    destruct (indexOf (a ++ opening ++ run ++ String stop b) opening) as [j|] eqn:E;
      [| discriminate].
    simpl in Hfirst. injection Hfirst as ->.
    simpl replaceFirst. rewrite delimited_spec, S. simpl.
    f_equal. now apply IH.
Qed.

Lemma insertTitle_at (a attrs b : string) :
  indexOf (a ++ "<svg" ++ attrs ++ ">" ++ b) "<svg" = Some (String.length a) ->
  hasChar ">" attrs = false ->
  insertTitle (a ++ "<svg" ++ attrs ++ ">" ++ b)
  = a ++ "<svg" ++ attrs ++ ">" ++ titleElement ++ b.
Proof.
  intros Hfirst Hattrs. unfold insertTitle, svgOpeningTag.
  change (">" ++ b) with (String ">" b) in *.
  rewrite (replaceFirst_delimited_at "<svg" ">" _ a attrs b Hfirst Hattrs).
  f_equal.
  change ("<svg" ++ attrs ++ ">") with (String "<" (String "s" (String "v" (String "g" (attrs ++ ">"))))).
  simpl String.length. simpl sliceFrom.
  rewrite length_append. simpl String.length.
  replace (S (S (S (S (String.length attrs + 1)))) - 5) with (String.length attrs) by lia.
  rewrite sliceTo_append. simpl. now rewrite !append_assoc.
Qed.

Lemma spreadRest_at (a t : string) :
  indexOf (a ++ "<svg" ++ t) "<svg" = Some (String.length a) ->
  spreadRest (a ++ "<svg" ++ t) = a ++ "<svg {...rest}" ++ t.
Proof.
  intros H. unfold spreadRest, svgTag.
  rewrite (replaceFirst_literal_at _ _ _ _ H).
  rewrite sliceTo_append. f_equal. f_equal.
  rewrite <- sliceFrom_sliceFrom, sliceFrom_append. reflexivity.
Qed.

(** ** trim keeps what is inside *)

Lemma includes_trimStart (s : string) (c : ascii) (p : string) :
  isWhiteSpace c = false ->
  includes s (String c p) = true -> includes (trimStart s) (String c p) = true.
Proof.
  intros Hc. induction s as [|x s IH]; [easy |].
  intros H. simpl trimStart. destruct (isWhiteSpace x) eqn:Hx; [| exact H].
  apply IH. simpl in H. apply orb_true_iff in H as [H | H]; [| exact H].
  apply andb_true_iff in H as [H _]. apply Ascii.eqb_eq in H. subst x.
  congruence.
Qed.

Lemma startsWith_trimEnd (s p : string) (e : ascii) :
  lastChar p = Some e -> isWhiteSpace e = false ->
  startsWith s p = true -> startsWith (trimEnd s) p = true.
Proof.
  revert s; induction p as [|d p IH]; intros s Hlast He; [discriminate |].
  destruct s as [|c s]; [easy |]. simpl startsWith at 1.
  intros H. apply andb_true_iff in H as [Hd H].
  apply Ascii.eqb_eq in Hd. subst c.
  destruct p as [|d' p].
  - injection Hlast as <-. simpl. rewrite He.
    destruct (trimEnd s); simpl; now rewrite Ascii.eqb_refl.
  - specialize (IH s Hlast He H). simpl trimEnd.
    destruct (trimEnd s) as [|y t] eqn:E; [discriminate |].
    simpl. rewrite Ascii.eqb_refl. exact IH.
Qed.

Lemma includes_trimEnd (s p : string) (e : ascii) :
  lastChar p = Some e -> isWhiteSpace e = false ->
  includes s p = true -> includes (trimEnd s) p = true.
Proof.
  intros Hlast He. induction s as [|c s IH].
  - destruct p; [discriminate | easy].
  - intros H. simpl in H. apply orb_true_iff in H as [H | H].
    + apply includes_here. now apply (startsWith_trimEnd _ _ e).
    + specialize (IH H). simpl trimEnd.
      destruct (trimEnd s) as [|y t] eqn:E.
      * destruct p; [discriminate | discriminate].
      * now apply includes_later.
Qed.

Lemma includes_trim (s : string) (c : ascii) (p : string) (e : ascii) :
  isWhiteSpace c = false ->
  lastChar (String c p) = Some e -> isWhiteSpace e = false ->
  includes s (String c p) = true -> includes (trim s) (String c p) = true.
Proof.
  intros Hc Hlast He H. unfold trim.
  apply (includes_trimEnd _ _ e Hlast He). now apply includes_trimStart.
Qed.

(** ** The title and the spread of the props on the root tag *)

Lemma includes_trans (s p q : string) :
  includes s p = true -> includes p q = true -> includes s q = true.
Proof.
  intros Hs Hp. apply includes_iff in Hs as (a & b & ->).
  apply includes_append_r, includes_append_l. exact Hp.
Qed.

Lemma includes_cons (x : ascii) (s p : string) :
  includes (String x s) p = startsWith (String x s) p || includes s p.
Proof. reflexivity. Qed.

Lemma includes_append_char (d : ascii) (a y : string) (c : ascii) (p : string) :
  hasChar d (String c p) = false ->
  includes (a ++ String d y) (String c p)
  = includes a (String c p) || includes y (String c p).
Proof.
  intros Hd. induction a as [|x a IH].
  - simpl append. rewrite includes_cons. simpl in Hd.
    apply orb_false_iff in Hd as [Hc _]. simpl. now rewrite Hc.
  - change (String x a ++ String d y) with (String x (a ++ String d y)).
    rewrite !(includes_cons x). rewrite IH, orb_assoc. f_equal. f_equal.
    change (String x (a ++ String d y)) with (String x a ++ String d y).
    destruct (startsWith (String x a) (String c p)) eqn:E.
    + now apply startsWith_extend.
    + destruct (startsWith (String x a ++ String d y) (String c p)) eqn:E';
        [| reflexivity].
      now rewrite (startsWith_before_char d _ _ _ Hd E') in E.
Qed.

Lemma unmatched_without_opening (before : string) (stop : ascii) (x : string) :
  includes x (before ++ String stop EmptyString) = false ->
  matchesIn (quoted before stop) x = false.
Proof.
  induction x as [|c x IH]; intros H.
  - simpl in *. unfold quoted. rewrite delimited_spec.
    rewrite orb_false_r in H. now rewrite H.
  - simpl in H. apply orb_false_iff in H as [Hhere Hlater].
    simpl. unfold quoted at 1. rewrite delimited_spec.
    simpl startsWith. rewrite Hhere. simpl. now apply IH.
Qed.

Lemma closesWithin_without_opening (before : string) (stop : ascii) (x : string) :
  includes x (before ++ String stop EmptyString) = false ->
  closesWithin before stop x = true.
Proof.
  induction x as [|c x IH]; intros H.
  - simpl in *. rewrite orb_false_r in H. now rewrite H.
  - simpl in H. apply orb_false_iff in H as [Hhere Hlater].
    simpl. simpl in Hhere. rewrite Hhere. simpl. now apply IH.
Qed.

Lemma removeClass_root (a attrs b : string) :
  includes a ("class=" ++ DQ) = false ->
  closesWithin "class=" dquote attrs = true ->
  removeClass (a ++ "<svg" ++ attrs ++ ">" ++ titleElement ++ b)
  = a ++ "<svg" ++ removeClass attrs ++ ">" ++ titleElement ++ removeClass b.
Proof.
  intros Ha Hattrs. unfold removeClass, classAttribute.
  change (delimited ("class=" ++ DQ) dquote DQ) with (quoted "class=" dquote).
  assert (includes (a ++ "<svg") ("class=" ++ DQ) = false) as Hroot.
  { change (a ++ "<svg") with (a ++ String "<" "svg").
    change ("class=" ++ DQ) with (String "c" ("lass=" ++ DQ)) in *.
    rewrite includes_append_char by reflexivity. now rewrite Ha. }
  replace (a ++ "<svg" ++ attrs ++ ">" ++ titleElement ++ b)
    with ((a ++ "<svg") ++ attrs ++ (">" ++ titleElement) ++ b)
    by (now rewrite !append_assoc).
  rewrite (replaceAll_quoted_split "class=" dquote EmptyString (a ++ "<svg")).
  - rewrite (replaceAll_unmatched _ _ (a ++ "<svg"))
      by (now apply unmatched_without_opening).
    rewrite (replaceAll_quoted_split "class=" dquote EmptyString attrs).
    + rewrite (replaceAll_quoted_split "class=" dquote EmptyString (">" ++ titleElement)).
      * rewrite (replaceAll_unmatched _ _ (">" ++ titleElement)) by reflexivity.
        now rewrite !append_assoc.
      * reflexivity.
      * apply (noCrossing_last _ _ ">"); reflexivity.
    + exact Hattrs.
    + apply (noCrossing_first _ _ ">"). reflexivity.
  - now apply closesWithin_without_opening.
  - apply (noCrossing_last _ _ "g"); [| reflexivity].
    change (a ++ "<svg") with (a ++ String "<" "svg").
    now rewrite lastChar_append_cons.
Qed.

(** C4, amended. When the text that reaches the title step has a root tag,
    that is a first [<svg], then attributes without [>], then [>], and no
    class attribute is open at the end of that tag (none before the tag, and
    each one in the tag has its closing double quote in the tag), then the
    output holds the root tag with [{...rest}] right after [<svg], and the
    title element right after the [>] of the root tag. *)
Theorem title_and_rest_on_root_tag :
  forall (this : IconInput) (componentName text a attrs b : string),
    svgText this = Some text ->
    truthy (Some text) = true ->
    beforeTitle text = a ++ "<svg" ++ attrs ++ ">" ++ b ->
    indexOf (beforeTitle text) "<svg" = Some (String.length a) ->
    hasChar ">" attrs = false ->
    includes a ("class=" ++ DQ) = false ->
    closesWithin "class=" dquote attrs = true ->
    let markup :=
      a ++ "<svg {...rest}" ++ removeClass attrs ++ ">" ++ titleElement ++ removeClass b in
    processedMarkup text = markup /\
    processSvgForReact this componentName = inr (componentSource (name this) markup) /\
    includes (componentSource (name this) markup)
      ("<svg {...rest}" ++ removeClass attrs ++ ">" ++ titleElement) = true /\
    includes (componentSource (name this) markup) "<title>{title}</title>" = true /\
    includes (componentSource (name this) markup) "{...rest}" = true.
Proof.
  intros this componentName text a attrs b Htext Htruthy Hshape Hfirst Hattrs Ha Hclass.
  cbv zeta.
  assert (processedMarkup text
          = a ++ "<svg {...rest}" ++ removeClass attrs ++ ">" ++ titleElement ++ removeClass b)
    as Hmarkup.
  { unfold processedMarkup. fold (beforeTitle text).
    rewrite Hshape in Hfirst |- *.
    rewrite (insertTitle_at a attrs b Hfirst Hattrs).
    rewrite (removeClass_root a attrs b Ha Hclass).
    apply spreadRest_at.
    now apply (indexOf_tail_irrelevant "<svg" a (attrs ++ ">" ++ b)). }
  assert (includes
            (componentSource (name this)
               (a ++ "<svg {...rest}" ++ removeClass attrs ++ ">" ++ titleElement
                  ++ removeClass b))
            ("<svg {...rest}" ++ removeClass attrs ++ ">" ++ titleElement) = true)
    as Hroot.
  { unfold componentSource.
    apply includes_append_r, includes_append_r, includes_append_r, includes_append_l.
    change ("<svg {...rest}" ++ removeClass attrs ++ ">" ++ titleElement)
      with (String "<" ("svg {...rest}" ++ removeClass attrs ++ ">" ++ titleElement)).
    apply (includes_trim _ _ _ ">").
    - reflexivity.
    - change (String "<" ("svg {...rest}" ++ removeClass attrs ++ ">" ++ titleElement))
        with ("<svg {...rest}" ++ removeClass attrs ++ ">" ++ titleElement).
      rewrite <- !append_assoc. unfold titleElement.
      now rewrite lastChar_append_cons.
    - reflexivity.
    - change (String "<" ("svg {...rest}" ++ removeClass attrs ++ ">" ++ titleElement))
        with ("<svg {...rest}" ++ removeClass attrs ++ ">" ++ titleElement).
      replace (a ++ "<svg {...rest}" ++ removeClass attrs ++ ">" ++ titleElement
                 ++ removeClass b)
        with (a ++ ("<svg {...rest}" ++ removeClass attrs ++ ">" ++ titleElement)
                ++ removeClass b)
        by (now rewrite !append_assoc).
      apply includes_middle. }
  split; [exact Hmarkup |]. split; [| split; [exact Hroot | split]].
  - unfold processSvgForReact. rewrite Htext, Htruthy. simpl. now rewrite Hmarkup.
  - apply (includes_trans _ _ _ Hroot).
    apply includes_append_r, includes_append_r, includes_append_r. reflexivity.
  - apply (includes_trans _ _ _ Hroot).
    apply includes_append_l. reflexivity.
Qed.

Lemma title_and_rest_on_root_tag_witness :
  processedMarkup featherText
  = "<svg {...rest} height={height} width={width}  viewBox=" ++ DQ ++ "0 0 24 24" ++ DQ
      ++ ">" ++ titleElement ++ "<path d=" ++ DQ ++ "M0 0" ++ DQ ++ "/></svg>".
Proof.
  apply (title_and_rest_on_root_tag featherIcon "Star" featherText EmptyString
           (" height={height} width={width} class=" ++ DQ ++ "feather feather-star" ++ DQ
              ++ " viewBox=" ++ DQ ++ "0 0 24 24" ++ DQ)
           ("<path d=" ++ DQ ++ "M0 0" ++ DQ ++ "/></svg>"));
    reflexivity.
Defined.

(** C4 as stated fails on an icon whose root tag has a class with [>] in its
    value: the title goes after that [>], inside the value, and leaves with
    the class attribute. *)
Lemma title_missing_counterexample :
  ~ (forall (this : IconInput) (componentName source : string),
        processSvgForReact this componentName = inr source ->
        includes source "<title>{title}</title>" = true /\
        includes source "{...rest}" = true).
Proof.
  intros H.
  destruct (H classWithBracket "Test" _ eq_refl) as [Htitle _].
  vm_compute in Htitle. discriminate Htitle.
Qed.

(** A text without [svg] tag gets neither the title nor the spread. *)
Example no_root_tag :
  includes (componentSource "test" (processedMarkup "404: Not Found")) "<title>{title}</title>"
  = false /\
  includes (componentSource "test" (processedMarkup "404: Not Found")) "{...rest}" = false.
Proof. split; vm_compute; reflexivity. Qed.

(* ===================================================================== *)
(** * Further properties *)

(** ** The loader *)

Lemma repositoryMap_from_presets (presets : list RepositoryConfig.t)
    (m0 : gmap string RepositoryConfig.t) (key : string) (preset : RepositoryConfig.t) :
  fold_left (fun m repo => <[ RepositoryConfig.name repo := repo ]> m) presets m0 !! key
  = Some preset ->
  (In preset presets /\ RepositoryConfig.name preset = key) \/ m0 !! key = Some preset.
Proof.
  revert m0; induction presets as [|p presets IH]; intros m0 H; simpl in H.
  - now right.
  - destruct (IH _ H) as [[Hin Hname] | Hm0].
    + left. split; [now right | exact Hname].
    + destruct (decide (RepositoryConfig.name p = key)) as [Heq | Hne].
      * rewrite Heq, lookup_insert_eq in Hm0. injection Hm0 as <-.
        left. split; [now left | exact Heq].
      * rewrite lookup_insert_ne in Hm0 by exact Hne. now right.
Qed.

Lemma pushIconInputs_built (m : gmap string RepositoryConfig.t) (data : Config.t)
    (icons : list IconConfig.t) (acc result : list IconInput) :
  pushIconInputs m data acc icons = inr result ->
  exists built, result = (acc ++ built)%list /\ Forall2 (builtFrom m data) icons built.
Proof.
  revert acc; induction icons as [|icon icons IH]; intros acc H; simpl in H.
  - injection H as <-. exists []. split; [now rewrite app_nil_r | constructor].
  - destruct (getRepository m (IconConfig.repository icon)) as [preset|] eqn:E;
      [| discriminate].
    destruct (IH _ H) as (built & -> & Hbuilt).
    exists (iconInputOf data icon preset :: built). split.
    + now rewrite <- app_assoc.
    + constructor; [| exact Hbuilt].
      unfold getRepository in E.
      destruct (IconConfig.repository icon) as [key|] eqn:K; [| discriminate].
      now exists key, preset.
Qed.

Lemma pushIconInputs_known (m : gmap string RepositoryConfig.t) (data : Config.t)
    (icons : list IconConfig.t) (acc : list IconInput) :
  Forall (hasPreset m) icons ->
  exists result, pushIconInputs m data acc icons = inr result.
Proof.
  intros H. revert acc. induction H as [|icon icons Hicon _ IH]; intros acc; simpl.
  - now exists acc.
  - unfold hasPreset in Hicon.
    destruct (getRepository m (IconConfig.repository icon)); [apply IH | congruence].
Qed.

Lemma pushIconInputs_unknown (m : gmap string RepositoryConfig.t) (data : Config.t)
    (before after : list IconConfig.t) (bad : IconConfig.t) (acc : list IconInput) :
  Forall (hasPreset m) before ->
  getRepository m (IconConfig.repository bad) = None ->
  pushIconInputs m data acc (before ++ bad :: after) = inl (unknownPreset bad).
Proof.
  intros H Hbad. revert acc. induction H as [|icon icons Hicon _ IH]; intros acc; simpl.
  - now rewrite Hbad.
  - unfold hasPreset in Hicon.
    destruct (getRepository m (IconConfig.repository icon)); [apply IH | congruence].
Qed.

Section LoaderProperties.

Variable validate : Config.t -> option string.
Variable presets : list RepositoryConfig.t.

(** X1. When the loader returns, it returns one descriptor per entry of the
    configuration, in the order of the entries, and each descriptor has the
    name, the variant and the size of its entry; its output is the output
    of the entry when that is a text that is not empty, or else the output
    of the configuration when that is one, or else the current directory;
    its file name is the text under [saveAs] when that is not empty, or
    else the sanitized name of the entry. *)
Theorem loader_keeps_entries_in_order :
  forall (data : Config.t) (result : list IconInput),
    loadAndParseIconInputs validate presets data = inr result ->
    length result = length (Config.icons data) /\
    Forall2 (fun icon built =>
               name built = IconConfig.name icon /\
               variant built = IconConfig.variant icon /\
               size built = IconConfig.size icon /\
               output built
               = match IconConfig.output icon, Config.output data with
                 | Some (String c o), _ => String c o
                 | _, Some (String c o) => String c o
                 | _, _ => "."
                 end /\
               filename built
               = match IconConfig.saveAs icon with
                 | Some (String c f) => String c f
                 | _ => santizeFilename (IconConfig.name icon)
                 end)
      (Config.icons data) result.
Proof.
  intros data result H. unfold loadAndParseIconInputs in H.
  destruct (validate data); [discriminate |].
  destruct (pushIconInputs_built _ _ _ _ _ H) as (built & -> & Hbuilt).
  simpl. split; [symmetry; exact (Forall2_length _ _ _ Hbuilt) |].
  clear H. induction Hbuilt as [|icon b icons built Hb _ IH]; constructor; [| exact IH].
  destruct Hb as (key & preset & _ & _ & ->).
  unfold iconInputOf, newIconInput. simpl.
  split; [reflexivity |]. split; [reflexivity |]. split; [reflexivity |]. split.
  - destruct (IconConfig.output icon) as [[|c o]|];
      destruct (Config.output data) as [[|c' o']|]; reflexivity.
  - destruct (IconConfig.saveAs icon) as [[|c f]|]; reflexivity.
Qed.

(** X2. The loader returns descriptors exactly when the data passes the
    schema and every entry names a preset of the table. *)
Theorem loader_succeeds_iff :
  forall data : Config.t,
    (exists result, loadAndParseIconInputs validate presets data = inr result) <->
    (validate data = None /\
     Forall (hasPreset (repositoryMap presets)) (Config.icons data)).
Proof.
  intros data. unfold loadAndParseIconInputs. split.
  - intros [result H]. destruct (validate data); [discriminate |].
    split; [reflexivity |].
    destruct (pushIconInputs_built _ _ _ _ _ H) as (built & _ & Hbuilt).
    clear H. induction Hbuilt as [|icon b icons built' Hb _ IH]; constructor; [| exact IH].
    destruct Hb as (key & preset & Hkey & Hpreset & _).
    unfold hasPreset, getRepository. rewrite Hkey, Hpreset. discriminate.
  - intros [-> Hall]. now apply pushIconInputs_known.
Qed.

(** X3. The loader stops at the first entry without preset, whatever comes
    after it: the error names the repository of that entry, or reads
    undefined when the entry gives none. *)
Theorem loader_reports_first_unknown :
  forall (data : Config.t) (before after : list IconConfig.t) (bad : IconConfig.t),
    validate data = None ->
    Config.icons data = (before ++ bad :: after)%list ->
    Forall (hasPreset (repositoryMap presets)) before ->
    getRepository (repositoryMap presets) (IconConfig.repository bad) = None ->
    loadAndParseIconInputs validate presets data
    = inl ("Unknown repository preset: "
             ++ default "undefined" (IconConfig.repository bad)).
Proof.
  intros data before after bad Hvalid Hicons Hbefore Hbad.
  unfold loadAndParseIconInputs. rewrite Hvalid, Hicons.
  now apply pushIconInputs_unknown.
Qed.

(** X4. Every descriptor that the loader returns is bound to a preset of the
    table, the one whose name the entry gives. *)
Theorem loader_binds_presets :
  forall (data : Config.t) (result : list IconInput),
    loadAndParseIconInputs validate presets data = inr result ->
    Forall2 (fun icon built =>
               In (repository built) presets /\
               IconConfig.repository icon
               = Some (RepositoryConfig.name (repository built)))
      (Config.icons data) result.
Proof.
  intros data result H. unfold loadAndParseIconInputs in H.
  destruct (validate data); [discriminate |].
  destruct (pushIconInputs_built _ _ _ _ _ H) as (built & -> & Hbuilt).
  simpl. clear H.
  induction Hbuilt as [|icon b icons built' Hb _ IH]; constructor; [| exact IH].
  destruct Hb as (key & preset & Hkey & Hpreset & ->). simpl.
  destruct (repositoryMap_from_presets presets ∅ key preset Hpreset)
    as [[Hin Hname] | Hempty].
  - split; [exact Hin | now rewrite Hname].
  - now rewrite lookup_empty in Hempty.
Qed.

(** X5. Every descriptor that the loader returns has no text yet, the two
    flags of its entry or else false, an output that is not empty, and,
    when the entry gives no name under [saveAs], a file name made of a-z,
    0-9 and the hyphen only. *)
Theorem loader_descriptors_are_fresh :
  forall (data : Config.t) (result : list IconInput),
    loadAndParseIconInputs validate presets data = inr result ->
    Forall2 (fun icon built =>
               svgText built = None /\
               output built <> EmptyString /\
               overwrite built = default false (IconConfig.overwrite icon) /\
               tsxTransform built = default false (IconConfig.tsxTransform icon) /\
               (truthy (IconConfig.saveAs icon) = false ->
                allChars isFilenameChar (filename built) = true))
      (Config.icons data) result.
Proof.
  intros data result H. unfold loadAndParseIconInputs in H.
  destruct (validate data); [discriminate |].
  destruct (pushIconInputs_built _ _ _ _ _ H) as (built & -> & Hbuilt).
  simpl. clear H.
  induction Hbuilt as [|icon b icons built' Hb _ IH]; constructor; [| exact IH].
  destruct Hb as (key & preset & _ & _ & ->). simpl.
  split; [reflexivity |]. split; [| split; [reflexivity | split; [reflexivity |]]].
  - destruct (IconConfig.output icon) as [[|c o]|]; simpl; try discriminate;
      destruct (Config.output data) as [[|c' o']|]; simpl; discriminate.
  - intros Hsave.
    destruct (IconConfig.saveAs icon) as [[|c o]|]; simpl in *; try discriminate;
      apply santizeFilename_chars.
Qed.

(** X6. The loader never reads the global repository of the configuration:
    with the same verdict of the schema, two configurations that differ in
    it only load alike, and an entry without repository is refused as
    undefined even when the configuration has a global repository. *)
Theorem loader_ignores_global_repository :
  forall (data : Config.t) (global : option string),
    validate data = None ->
    validate (setGlobalRepository global data) = None ->
    loadAndParseIconInputs validate presets (setGlobalRepository global data)
    = loadAndParseIconInputs validate presets data
    /\
    (forall (first : IconConfig.t) (rest : list IconConfig.t),
        Config.icons data = first :: rest ->
        IconConfig.repository first = None ->
        loadAndParseIconInputs validate presets (setGlobalRepository global data)
        = inl "Unknown repository preset: undefined").
Proof.
  intros data global Hvalid Hvalid'. unfold loadAndParseIconInputs.
  rewrite Hvalid, Hvalid'. simpl Config.icons.
  assert (forall icons acc,
             pushIconInputs (repositoryMap presets) (setGlobalRepository global data) acc icons
             = pushIconInputs (repositoryMap presets) data acc icons) as Hsame.
  { induction icons as [|icon icons IH]; intros acc; simpl; [reflexivity |].
    destruct (getRepository _ _); [apply IH | reflexivity]. }
  split; [apply Hsame |].
  intros first rest Hicons Hnone. rewrite Hsame, Hicons. simpl.
  now rewrite Hnone.
Qed.

End LoaderProperties.

Lemma loader_keeps_entries_in_order_witness :
  length [ iconInputOf (configOf None [arrowRightEntry; settingsEntry; savedAsEntry])
             arrowRightEntry heroicons;
           iconInputOf (configOf None [arrowRightEntry; settingsEntry; savedAsEntry])
             settingsEntry lucide;
           iconInputOf (configOf None [arrowRightEntry; settingsEntry; savedAsEntry])
             savedAsEntry heroicons ]
  = length [arrowRightEntry; settingsEntry; savedAsEntry]
  /\
  Forall2 (fun icon built =>
             name built = IconConfig.name icon /\
             variant built = IconConfig.variant icon /\
             size built = IconConfig.size icon /\
             output built
             = match IconConfig.output icon, Some "./icons" with
               | Some (String c o), _ => String c o
               | _, Some (String c o) => String c o
               | _, _ => "."
               end /\
             filename built
             = match IconConfig.saveAs icon with
               | Some (String c f) => String c f
               | _ => santizeFilename (IconConfig.name icon)
               end)
    [arrowRightEntry; settingsEntry; savedAsEntry]
    [ iconInputOf (configOf None [arrowRightEntry; settingsEntry; savedAsEntry])
        arrowRightEntry heroicons;
      iconInputOf (configOf None [arrowRightEntry; settingsEntry; savedAsEntry])
        settingsEntry lucide;
      iconInputOf (configOf None [arrowRightEntry; settingsEntry; savedAsEntry])
        savedAsEntry heroicons ].
Proof.
  apply (loader_keeps_entries_in_order accepts twoPresets
           (configOf None [arrowRightEntry; settingsEntry; savedAsEntry])).
  reflexivity.
Defined.

Lemma loader_reports_first_unknown_witness :
  loadAndParseIconInputs accepts twoPresets
    (configOf None [arrowRightEntry; unknownEntry; entryWithoutRepository])
  = inl "Unknown repository preset: unknown-repo".
Proof.
  apply (loader_reports_first_unknown accepts twoPresets _ [arrowRightEntry]
           [entryWithoutRepository] unknownEntry); try reflexivity.
  constructor; [| constructor]. unfold hasPreset. vm_compute. discriminate.
Defined.

Lemma loader_binds_presets_witness :
  Forall2 (fun icon built =>
             In (repository built) twoPresets /\
             IconConfig.repository icon = Some (RepositoryConfig.name (repository built)))
    [arrowRightEntry; settingsEntry]
    [ iconInputOf (configOf None [arrowRightEntry; settingsEntry]) arrowRightEntry heroicons;
      iconInputOf (configOf None [arrowRightEntry; settingsEntry]) settingsEntry lucide ].
Proof.
  apply (loader_binds_presets accepts twoPresets
           (configOf None [arrowRightEntry; settingsEntry])).
  reflexivity.
Defined.

Lemma loader_descriptors_are_fresh_witness :
  Forall2 (fun icon built =>
             svgText built = None /\
             output built <> EmptyString /\
             overwrite built = default false (IconConfig.overwrite icon) /\
             tsxTransform built = default false (IconConfig.tsxTransform icon) /\
             (truthy (IconConfig.saveAs icon) = false ->
              allChars isFilenameChar (filename built) = true))
    [arrowRightEntry; settingsEntry]
    [ iconInputOf (configOf None [arrowRightEntry; settingsEntry]) arrowRightEntry heroicons;
      iconInputOf (configOf None [arrowRightEntry; settingsEntry]) settingsEntry lucide ].
Proof.
  apply (loader_descriptors_are_fresh accepts twoPresets
           (configOf None [arrowRightEntry; settingsEntry])).
  reflexivity.
Defined.

Lemma loader_ignores_global_repository_witness :
  loadAndParseIconInputs accepts twoPresets
    (setGlobalRepository (Some "heroicons") (configOf None [entryWithoutRepository]))
  = inl "Unknown repository preset: undefined".
Proof.
  apply (proj2 (loader_ignores_global_repository accepts twoPresets
                  (configOf None [entryWithoutRepository]) (Some "heroicons")
                  eq_refl eq_refl) entryWithoutRepository []); reflexivity.
Defined.

(** ** The pipeline: grabSvgText, transform, saveToFile *)

Lemma sameButText_refl (a : IconInput) : sameButText a a.
Proof. reflexivity. Qed.

Lemma sameButText_trans (a b c : IconInput) :
  sameButText a b -> sameButText b c -> sameButText a c.
Proof. unfold sameButText. congruence. Qed.

Lemma sameButText_setSvgText (text : string) (a : IconInput) :
  sameButText a (setSvgText text a).
Proof. reflexivity. Qed.

Lemma sameButText_fields (a b : IconInput) :
  sameButText a b ->
  output a = output b /\ name a = name b /\ filename a = filename b /\
  variant a = variant b /\ size a = size b /\ repository a = repository b /\
  overwrite a = overwrite b /\ tsxTransform a = tsxTransform b.
Proof.
  unfold sameButText, setSvgText. intros H. injection H. intros. repeat split; assumption.
Qed.

Lemma sameButText_filePathOf (a b : IconInput) :
  sameButText a b -> filePathOf a = filePathOf b.
Proof.
  intros H. destruct (sameButText_fields a b H) as (Ho & _ & Hf & _ & _ & _ & _ & Ht).
  unfold filePathOf. now rewrite Ho, Hf, Ht.
Qed.

Lemma transform_cases (this : IconInput) :
  transform this =
  if truthy (svgText this)
  then (inr tt,
        if tsxTransform this
        then setSvgText (componentSource (name this)
                           (processedMarkup (default EmptyString (svgText this)))) this
        else this)
  else (inl ("Icon data is not downloaded for " ++ name this), this).
Proof.
  unfold transform, processSvgForReact.
  destruct (truthy (svgText this)); simpl; [| reflexivity].
  destruct (tsxTransform this); reflexivity.
Qed.

Lemma transform_sameButText (this : IconInput) :
  sameButText this (snd (transform this)).
Proof.
  rewrite transform_cases.
  destruct (truthy (svgText this)); simpl; [| reflexivity].
  destruct (tsxTransform this); reflexivity.
Qed.

Lemma truthy_componentSource (iconName processed : string) :
  truthy (Some (componentSource iconName processed)) = true.
Proof. reflexivity. Qed.

Section Pipeline.

Variable network : list string -> string -> FetchOutcome.
Variable dirname : string -> string.

Lemma grabSvgText_keeps (this : IconInput) (w : World) :
  files (worldAfter (grabSvgText network this w)) = files w /\
  directories (worldAfter (grabSvgText network this w)) = directories w /\
  sameButText this (iconAfter (grabSvgText network this w)).
Proof.
  destruct (truthy (svgText this)) eqn:G.
  - rewrite (grabSvgText_guard network this w G). simpl. repeat split.
  - rewrite (grabSvgText_fetch network this w G).
    destruct (network (requests w) (buildUrl this)) as [reason | response].
    + simpl. repeat split.
    + destruct (ok response); simpl; repeat split.
Qed.

(** X7. [grabSvgText] touches nothing but the text of the icon, the list of
    requests and the printed lines: the files and the directories are as
    before, the other fields of the icon are as before, and at most one
    request is made, to the URL of the icon. *)
Theorem grabSvgText_frame :
  forall (this : IconInput) (w : World),
    let result := grabSvgText network this w in
    files (worldAfter result) = files w /\
    directories (worldAfter result) = directories w /\
    sameButText this (iconAfter result) /\
    (requests (worldAfter result) = requests w \/
     requests (worldAfter result) = (requests w ++ [buildUrl this])%list).
Proof.
  intros this w. cbv zeta.
  destruct (grabSvgText_keeps this w) as (Hfiles & Hdirs & Hsame).
  repeat split; try assumption; try apply Hsame.
  destruct (truthy (svgText this)) eqn:G.
  - left. now rewrite (grabSvgText_guard network this w G).
  - right. rewrite (grabSvgText_fetch network this w G).
    destruct (network (requests w) (buildUrl this)) as [reason | response];
      [reflexivity |].
    now destruct (ok response).
Qed.

Lemma grabSvgText_requests (this : IconInput) (w : World) :
  truthy (svgText this) = false ->
  requests (worldAfter (grabSvgText network this w))
  = (requests w ++ [buildUrl this])%list.
Proof.
  intros G. rewrite (grabSvgText_fetch network this w G).
  destruct (network (requests w) (buildUrl this)) as [reason | response];
    [reflexivity |].
  destruct (ok response); reflexivity.
Qed.

(** X8. A failure is not remembered: when a call of [grabSvgText] throws,
    the icon is as it was, and the next call requests the URL again. *)
Theorem grabSvgText_failure_not_cached :
  forall (this : IconInput) (w : World) (e : Error),
    completionOf (grabSvgText network this w) = inl e ->
    iconAfter (grabSvgText network this w) = this /\
    requests (worldAfter (grabSvgText network (iconAfter (grabSvgText network this w))
                            (worldAfter (grabSvgText network this w))))
    = (requests w ++ [buildUrl this; buildUrl this])%list.
Proof.
  intros this w e H.
  destruct (truthy (svgText this)) eqn:G.
  - rewrite (grabSvgText_guard network this w G) in H. discriminate H.
  - assert (iconAfter (grabSvgText network this w) = this /\
            requests (worldAfter (grabSvgText network this w))
            = (requests w ++ [buildUrl this])%list) as [Hicon Hreq].
    { rewrite (grabSvgText_fetch network this w G) in H |- *.
      destruct (network (requests w) (buildUrl this)) as [reason | response].
      - now split.
      - destruct (ok response); [discriminate H | now split]. }
    split; [exact Hicon |].
    rewrite Hicon.
    pose proof (grabSvgText_requests this
                  (worldAfter (grabSvgText network this w)) G) as Hnext.
    rewrite Hnext, Hreq, <- app_assoc. reflexivity.
Qed.

Lemma download_cases (this : IconInput) (w : World) :
  download network dirname this w =
  match grabSvgText network this w with
  | (inl e, this1, w1) => (inl e, this1, w1)
  | (inr _, this1, w1) =>
      match transform this1 with
      | (inl e, this2) => (inl e, this2, w1)
      | (inr _, this2) => saveToFile dirname this2 w1
      end
  end.
Proof.
  unfold download, bind, transformStep.
  destruct (grabSvgText network this w) as [[[e | []] this1] w1]; [reflexivity |].
  destruct (transform this1) as [[e | []] this2]; reflexivity.
Qed.

(** What a run of [download] that completes has done. *)
Lemma download_completed (this : IconInput) (w : World) :
  completionOf (download network dirname this w) = inr tt ->
  exists (text : string) (this2 : IconInput) (w1 : World),
    download network dirname this w
    = (inr tt, this2,
       {| requests := requests w1; warnings := warnings w1;
          files := <[ filePathOf this := text ]> (files w);
          directories := {[ dirname (filePathOf this) ]} ∪ directories w |}) /\
    svgText this2 = Some text /\ truthy (Some text) = true /\
    sameButText this this2.
Proof.
  intros H. rewrite download_cases in H |- *.
  pose proof (grabSvgText_keeps this w) as (Hfiles & Hdirs & Hsame).
  destruct (grabSvgText network this w) as [[[e | []] this1] w1]; [discriminate H |].
  simpl in Hfiles, Hdirs, Hsame.
  pose proof (transform_sameButText this1) as Hsame'.
  destruct (transform this1) as [[e | []] this2]; [discriminate H |].
  simpl in Hsame'.
  pose proof (sameButText_trans _ _ _ Hsame Hsame') as Hsame2.
  rewrite saveToFile_unfold in H |- *.
  destruct (truthy (svgText this2)) eqn:T; [| discriminate H].
  destruct (svgText this2) as [text|] eqn:Htext; [| discriminate T].
  exists text, this2, w1. simpl.
  rewrite <- (sameButText_filePathOf _ _ Hsame2), Hfiles, Hdirs.
  repeat split; assumption.
Qed.

(** X9. [download] saves what it fetched: for an icon without text yet whose
    request gets a response, a run that completes means that the response
    was a success with a body that is not empty; the file
    [output/filename.svg] then holds the body, or, with the TSX flag, the
    file [output/filename.tsx] holds the component built from the body; the
    icon holds the same text; one request was made and nothing was
    printed. *)
Theorem download_saves_what_it_fetched :
  forall (this : IconInput) (w : World) (response : Response),
    truthy (svgText this) = false ->
    network (requests w) (buildUrl this) = Resolved response ->
    completionOf (download network dirname this w) = inr tt ->
    ok response = true /\
    body response <> EmptyString /\
    svgText (iconAfter (download network dirname this w))
    = Some (savedText this (body response)) /\
    files (worldAfter (download network dirname this w)) !! filePathOf this
    = Some (savedText this (body response)) /\
    requests (worldAfter (download network dirname this w))
    = (requests w ++ [buildUrl this])%list /\
    warnings (worldAfter (download network dirname this w)) = warnings w.
Proof.
  intros this w response G Hnet H.
  assert (ok response = true /\ truthy (Some (body response)) = true) as [Hok Hbody].
  { rewrite download_cases, (grabSvgText_fetch network this w G), Hnet in H.
    destruct (ok response); [| discriminate H]. split; [reflexivity |].
    rewrite transform_cases in H.
    destruct (body response) as [|c text]; [discriminate H | reflexivity]. }
  assert (download network dirname this w
          = (inr tt,
             setSvgText (savedText this (body response)) this,
             {| requests := (requests w ++ [buildUrl this])%list;
                warnings := warnings w;
                files := <[ filePathOf this := savedText this (body response) ]> (files w);
                directories := {[ dirname (filePathOf this) ]} ∪ directories w |}))
    as Hrun.
  { rewrite download_cases, (grabSvgText_fetch network this w G), Hnet, Hok.
    rewrite transform_cases. simpl svgText. rewrite Hbody.
    change (tsxTransform (setSvgText (body response) this)) with (tsxTransform this).
    change (name (setSvgText (body response) this)) with (name this).
    unfold savedText. rewrite saveToFile_unfold.
    destruct (tsxTransform this) eqn:T.
    - simpl svgText. rewrite truthy_componentSource. simpl default.
      unfold filePathOf. simpl tsxTransform. rewrite T. reflexivity.
    - simpl svgText. rewrite Hbody. simpl default.
      unfold filePathOf. simpl tsxTransform. rewrite T. reflexivity. }
  rewrite Hrun. split; [exact Hok |].
  split; [intros Hempty; rewrite Hempty in Hbody; discriminate Hbody |].
  unfold iconAfter, worldAfter. simpl fst. simpl snd.
  split; [reflexivity |]. split; [apply lookup_insert_eq |]. split; reflexivity.
Qed.

(** X10. When the fetch or the transformation throws, [download] throws
    the same error and does not reach the file system: [saveToFile] is not
    run, the files are as before, and no directory was asked for. *)
Theorem download_failure_writes_nothing :
  forall (this : IconInput) (w : World) (e : Error),
    completionOf (grabSvgText network this w) = inl e \/
    (completionOf (grabSvgText network this w) = inr tt /\
     fst (transform (iconAfter (grabSvgText network this w))) = inl e) ->
    completionOf (download network dirname this w) = inl e /\
    files (worldAfter (download network dirname this w)) = files w /\
    directories (worldAfter (download network dirname this w)) = directories w.
Proof.
  intros this w e H. rewrite download_cases.
  pose proof (grabSvgText_keeps this w) as (Hfiles & Hdirs & _).
  unfold completionOf, iconAfter, worldAfter in *.
  destruct (grabSvgText network this w) as [[[e1 | []] this1] w1];
    simpl in Hfiles, Hdirs, H.
  - destruct H as [H | [H _]]; [| discriminate H].
    injection H as <-. now repeat split.
  - destruct H as [H | [_ H]]; [discriminate H |].
    destruct (transform this1) as [[e2 | []] this2]; simpl in H; [| discriminate H].
    injection H as <-. now repeat split.
Qed.

(** X11. A run of [download] that completes has written one file: the file
    at [output/filename] with the extension of the flag holds the text of
    the icon, which is not empty, and every other file is as before; the
    icon differs from the one before in its text at most. *)
Theorem download_success_writes_one_file :
  forall (this : IconInput) (w : World),
    completionOf (download network dirname this w) = inr tt ->
    exists text : string,
      svgText (iconAfter (download network dirname this w)) = Some text /\
      truthy (Some text) = true /\
      files (worldAfter (download network dirname this w)) !! filePathOf this = Some text /\
      (forall path : string,
          path <> filePathOf this ->
          files (worldAfter (download network dirname this w)) !! path = files w !! path) /\
      sameButText this (iconAfter (download network dirname this w)).
Proof.
  intros this w H.
  destruct (download_completed this w H) as (text & this2 & w1 & -> & Htext & Htruthy & Hsame).
  exists text. simpl. split; [exact Htext |]. split; [exact Htruthy |].
  split; [apply lookup_insert_eq |]. split; [| exact Hsame].
  intros path Hpath. now apply lookup_insert_ne.
Qed.

(** X12. A successful response with an empty body is not saved: the empty
    text is stored on the icon, [transform] takes it for missing and throws
    that the icon data is not downloaded, and no file is written. *)
Theorem download_empty_body :
  forall (this : IconInput) (w : World) (response : Response),
    truthy (svgText this) = false ->
    network (requests w) (buildUrl this) = Resolved response ->
    ok response = true ->
    body response = EmptyString ->
    download network dirname this w
    = (inl ("Icon data is not downloaded for " ++ name this),
       setSvgText EmptyString this,
       requested (buildUrl this) w).
Proof.
  intros this w response G Hnet Hok Hbody.
  rewrite download_cases, (grabSvgText_fetch network this w G), Hnet, Hok, Hbody.
  rewrite transform_cases. reflexivity.
Qed.

(** X13. For an icon without the TSX flag, [download] is idempotent: after
    a run that completes, a second run completes too, requests nothing and
    leaves the icon and the world as the first run left them. *)
Theorem download_raw_idempotent :
  forall (this : IconInput) (w : World),
    tsxTransform this = false ->
    completionOf (download network dirname this w) = inr tt ->
    download network dirname
      (iconAfter (download network dirname this w))
      (worldAfter (download network dirname this w))
    = download network dirname this w.
Proof.
  intros this w Hflag H.
  destruct (download_completed this w H) as (text & this2 & w1 & -> & Htext & Htruthy & Hsame).
  unfold iconAfter, worldAfter. simpl fst. simpl snd.
  assert (tsxTransform this2 = false) as Hflag2.
  { destruct (sameButText_fields _ _ Hsame) as (_ & _ & _ & _ & _ & _ & _ & <-).
    exact Hflag. }
  rewrite download_cases.
  rewrite grabSvgText_guard by (now rewrite Htext).
  rewrite transform_cases, Htext, Htruthy, Hflag2. cbv beta iota.
  rewrite saveToFile_unfold, Htext, Htruthy. simpl.
  rewrite <- (sameButText_filePathOf _ _ Hsame), insert_insert_eq.
  do 2 f_equal. now rewrite (assoc_L (∪)), union_idemp_L.
Qed.

End Pipeline.

Lemma grabSvgText_failure_not_cached_witness :
  requests (worldAfter (grabSvgText (serverSays notFound)
                          (iconAfter (grabSvgText (serverSays notFound) settings emptyWorld))
                          (worldAfter (grabSvgText (serverSays notFound) settings emptyWorld))))
  = [buildUrl settings; buildUrl settings].
Proof.
  apply (proj2 (grabSvgText_failure_not_cached (serverSays notFound) settings emptyWorld
                  (downloadFailure settings notFound) eq_refl)).
Defined.

Lemma download_saves_what_it_fetched_witness :
  files (worldAfter (download (serverSays (found "<svg><path d='M0 0'/></svg>")) parentOf
                       rawIcon emptyWorld))
    !! "/tmp/test-icons/test-icon.svg"
  = Some "<svg><path d='M0 0'/></svg>"
  /\
  svgText (iconAfter (download (serverSays (found "<svg><path d='M0 0'/></svg>")) parentOf
                        tsxIcon emptyWorld))
  = Some (componentSource "test-tsx" (processedMarkup "<svg><path d='M0 0'/></svg>")).
Proof.
  split.
  - apply (download_saves_what_it_fetched
             (serverSays (found "<svg><path d='M0 0'/></svg>")) parentOf rawIcon emptyWorld
             (found "<svg><path d='M0 0'/></svg>") eq_refl eq_refl eq_refl).
  - apply (download_saves_what_it_fetched
             (serverSays (found "<svg><path d='M0 0'/></svg>")) parentOf tsxIcon emptyWorld
             (found "<svg><path d='M0 0'/></svg>") eq_refl eq_refl eq_refl).
Defined.

Lemma download_failure_writes_nothing_witness :
  (files (worldAfter (download (serverSays notFound) parentOf rawIcon diskWithOldFile))
   = files diskWithOldFile)
  /\
  (completionOf (download (serverSays (found EmptyString)) parentOf rawIcon diskWithOldFile)
   = inl "Icon data is not downloaded for test-icon").
Proof.
  split.
  - apply (download_failure_writes_nothing (serverSays notFound) parentOf rawIcon
             diskWithOldFile (downloadFailure rawIcon notFound)).
    left. reflexivity.
  - apply (download_failure_writes_nothing (serverSays (found EmptyString)) parentOf rawIcon
             diskWithOldFile "Icon data is not downloaded for test-icon").
    right. split; reflexivity.
Defined.

Lemma download_success_writes_one_file_witness :
  exists text : string,
    svgText (iconAfter (download (serverSays (found "<svg/>")) parentOf rawIcon
                          diskWithOldFile)) = Some text /\
    truthy (Some text) = true /\
    files (worldAfter (download (serverSays (found "<svg/>")) parentOf rawIcon
                         diskWithOldFile)) !! filePathOf rawIcon = Some text /\
    (forall path : string,
        path <> filePathOf rawIcon ->
        files (worldAfter (download (serverSays (found "<svg/>")) parentOf rawIcon
                             diskWithOldFile)) !! path = files diskWithOldFile !! path) /\
    sameButText rawIcon
      (iconAfter (download (serverSays (found "<svg/>")) parentOf rawIcon diskWithOldFile)).
Proof.
  apply (download_success_writes_one_file (serverSays (found "<svg/>")) parentOf rawIcon
           diskWithOldFile eq_refl).
Defined.

Lemma download_empty_body_witness :
  download (serverSays (found EmptyString)) parentOf rawIcon emptyWorld
  = (inl "Icon data is not downloaded for test-icon",
     setSvgText EmptyString rawIcon,
     requested (buildUrl rawIcon) emptyWorld).
Proof.
  apply (download_empty_body (serverSays (found EmptyString)) parentOf rawIcon emptyWorld
           (found EmptyString)); reflexivity.
Defined.

Lemma download_raw_idempotent_witness :
  download (serverSays notFound) parentOf
    (iconAfter (download (serverSays (found "<svg/>")) parentOf rawIcon emptyWorld))
    (worldAfter (download (serverSays (found "<svg/>")) parentOf rawIcon emptyWorld))
  = download (serverSays (found "<svg/>")) parentOf rawIcon emptyWorld.
Proof.
  rewrite <- (download_raw_idempotent (serverSays (found "<svg/>")) parentOf rawIcon
                emptyWorld eq_refl eq_refl).
  reflexivity.
Defined.

(** ** saveToFile: two icons under one path *)



(** ** buildUrl on the usual templates *)

Lemma indexOf_absent (p s : string) :
  p <> EmptyString -> occurrences p s = 0 -> indexOf s p = None.
Proof.
  intros Hp. induction s as [|x s IH]; simpl.
  - destruct p; [congruence | reflexivity].
  - destruct (startsWith (String x s) p); [discriminate |].
    intros H. now rewrite IH.
Qed.

Lemma replace_absent (p s r : string) :
  p <> EmptyString -> occurrences p s = 0 -> replace s p r = s.
Proof. intros Hp H. unfold replace. now rewrite indexOf_absent. Qed.

Lemma occurrences_cons (p : string) (x : ascii) (s : string) :
  occurrences p (String x s)
  = (if startsWith (String x s) p then 1 else 0) + occurrences p s.
Proof. reflexivity. Qed.

Lemma occurrences_without_first (c : ascii) (q s : string) :
  hasChar c s = false -> occurrences (String c q) s = 0.
Proof.
  induction s as [|x s IH]; [reflexivity |].
  intros H. simpl in H. apply orb_false_iff in H as [Hx Hs].
  rewrite occurrences_cons, startsWith_cons, Ascii.eqb_sym, Hx. simpl.
  now apply IH.
Qed.

Lemma occurrences_braceless (q s : string) :
  hasChar "{" s = false -> occurrences (String "{" q) s = 0.
Proof. apply occurrences_without_first. Qed.

Lemma placeholder_absent (p q a b : string) :
  isPlaceholder p -> isPlaceholder q -> String.eqb p q = false ->
  hasChar "{" a = false -> hasChar "{" b = false ->
  occurrences p (a ++ q ++ b) = 0.
Proof.
  intros Hp Hq Hpq Ha Hb. rewrite (occurrences_placeholder p q a b Hp Hq), Hpq.
  destruct Hp as [-> | [-> | ->]]; now rewrite !occurrences_braceless.
Qed.

Lemma placeholder_variant : isPlaceholder "{variant}".
Proof. now left. Qed.

Lemma placeholder_size : isPlaceholder "{size}".
Proof. right. now left. Qed.

Lemma placeholder_iconName : isPlaceholder "{iconName}".
Proof. right. now right. Qed.

(** X15. For a template with the place of the icon name only, and no other
    brace, the URL is the base, a slash, and the template with the name of
    the icon, taken as it is, in the place of [{iconName}]; the name must
    hold no dollar sign. *)
Theorem buildUrl_name_template :
  forall (this : IconInput) (a c : string),
    RepositoryConfig.pathTemplate (repository this) = a ++ "{iconName}" ++ c ->
    hasChar "{" a = false -> hasChar "{" c = false ->
    hasChar "$" (name this) = false ->
    buildUrl this = baseUrlOf this ++ "/" ++ a ++ name this ++ c.
Proof.
  intros this a c Ht Ha Hc Hname. rewrite buildUrl_base. unfold pathOf. rewrite Ht.
  rewrite (replace_absent "{variant}") by
    (try discriminate;
     now apply placeholder_absent;
       [apply placeholder_variant | apply placeholder_iconName | | |]).
  rewrite (replace_absent "{size}") by
    (try discriminate;
     now apply placeholder_absent;
       [apply placeholder_size | apply placeholder_iconName | | |]).
  now rewrite (replace_plain "{" a "iconName}" c).
Qed.

(** X16. For a template with the place of the variant, then the place of
    the icon name, and no other brace, the URL is the base, a slash, and the
    template with the variant (nothing when the icon has none) and the name
    in their places; the variant must hold no dollar sign and no brace, the
    name no dollar sign. *)
Theorem buildUrl_variant_template :
  forall (this : IconInput) (a b c : string),
    RepositoryConfig.pathTemplate (repository this)
    = a ++ "{variant}" ++ b ++ "{iconName}" ++ c ->
    hasChar "{" a = false -> hasChar "{" b = false -> hasChar "{" c = false ->
    hasChar "$" (orElse (variant this) EmptyString) = false ->
    hasChar "{" (orElse (variant this) EmptyString) = false ->
    hasChar "$" (name this) = false ->
    buildUrl this
    = baseUrlOf this ++ "/" ++ a ++ orElse (variant this) EmptyString ++ b
        ++ name this ++ c.
Proof.
  intros this a b c Ht Ha Hb Hc Hv Hv' Hname.
  rewrite buildUrl_base. unfold pathOf. rewrite Ht.
  set (v := orElse (variant this) EmptyString) in *.
  rewrite (replace_plain "{" a "variant}" (b ++ "{iconName}" ++ c) v Ha Hv).
  assert (hasChar "{" (a ++ v ++ b) = false) as Hprefix
    by (now rewrite !hasChar_append, Ha, Hv', Hb).
  replace (a ++ v ++ b ++ "{iconName}" ++ c) with ((a ++ v ++ b) ++ "{iconName}" ++ c)
    by (now rewrite !append_assoc).
  rewrite (replace_absent "{size}") by
    (try discriminate;
     now apply placeholder_absent;
       [apply placeholder_size | apply placeholder_iconName | | |]).
  rewrite (replace_plain "{" (a ++ v ++ b) "iconName}" c _ Hprefix Hname).
  now rewrite !append_assoc.
Qed.

(** X17. For a template with the place of the size, then the place of the
    icon name, and no other brace, the URL is the base, a slash, and the
    template with the size in decimal (nothing when the icon has none; 0 is
    printed as 0) and the name in their places; the size is a safe integer
    and the name holds no dollar sign. *)
Theorem buildUrl_size_template :
  forall (this : IconInput) (a b c : string),
    RepositoryConfig.pathTemplate (repository this)
    = a ++ "{size}" ++ b ++ "{iconName}" ++ c ->
    hasChar "{" a = false -> hasChar "{" b = false -> hasChar "{" c = false ->
    hasChar "$" (name this) = false ->
    safeSize this ->
    buildUrl this
    = baseUrlOf this ++ "/" ++ a
        ++ match size this with
           | Some n => numberToString n
           | None => EmptyString
           end
        ++ b ++ name this ++ c
    /\ (size this = Some 0%Z ->
        buildUrl this = baseUrlOf this ++ "/" ++ a ++ "0" ++ b ++ name this ++ c).
Proof.
  intros this a b c Ht Ha Hb Hc Hname _.
  assert (buildUrl this
          = baseUrlOf this ++ "/" ++ a
              ++ orElse (option_map numberToString (size this)) EmptyString
              ++ b ++ name this ++ c) as Hurl.
  { rewrite buildUrl_base. unfold pathOf. rewrite Ht.
    set (z := orElse (option_map numberToString (size this)) EmptyString).
    assert (hasChar "$" z = false) as Hz by (now apply sizeText_plain).
    assert (hasChar "{" z = false) as Hz' by (now apply sizeText_plain).
    rewrite (replace_absent "{variant}").
    - rewrite (replace_plain "{" a "size}" (b ++ "{iconName}" ++ c) z Ha Hz).
      assert (hasChar "{" (a ++ z ++ b) = false) as Hprefix
        by (now rewrite !hasChar_append, Ha, Hz', Hb).
      replace (a ++ z ++ b ++ "{iconName}" ++ c) with ((a ++ z ++ b) ++ "{iconName}" ++ c)
        by (now rewrite !append_assoc).
      rewrite (replace_plain "{" (a ++ z ++ b) "iconName}" c _ Hprefix Hname).
      now rewrite !append_assoc.
    - discriminate.
    - rewrite (occurrences_placeholder "{variant}" "{size}" a _
                 placeholder_variant placeholder_size).
      rewrite (occurrences_braceless _ a Ha).
      rewrite (placeholder_absent "{variant}" "{iconName}" b c
                 placeholder_variant placeholder_iconName eq_refl Hb Hc).
      reflexivity. }
  split.
  - rewrite Hurl. destruct (size this) as [n|]; [| reflexivity]. simpl.
    pose proof (numberToString_nonempty n) as Hn.
    destruct (numberToString n); [congruence | reflexivity].
  - intros Hzero. rewrite Hurl, Hzero. reflexivity.
Qed.

Lemma buildUrl_name_template_witness :
  buildUrl settings
  = baseUrlOf settings ++ "/" ++ "icons/" ++ "settings" ++ ".svg".
Proof.
  apply (buildUrl_name_template settings "icons/" ".svg"); reflexivity.
Defined.

Lemma buildUrl_variant_template_witness :
  buildUrl arrowRight
  = baseUrlOf arrowRight ++ "/" ++ "optimized/24/" ++ "outline" ++ "/" ++ "arrow-right"
      ++ ".svg".
Proof.
  apply (buildUrl_variant_template arrowRight "optimized/24/" "/" ".svg"); reflexivity.
Defined.

Lemma buildUrl_size_template_witness :
  buildUrl star48 = baseUrlOf star48 ++ "/" ++ "icons/" ++ "48" ++ "/" ++ "star" ++ ".svg".
Proof.
  apply (buildUrl_size_template star48 "icons/" "/" ".svg"); try reflexivity.
  intros n [= <-]. split; reflexivity.
Defined.

(** ** santizeFilename: lengths and white space *)

Lemma length_replaceAllFrom (m : matcher) (r : string) (k : nat) (s : string) :
  String.length r <= 1 ->
  String.length (replaceAllFrom m r k s) <= String.length s - k.
Proof.
  intros Hr. revert k; induction s as [|c s IH]; intros k; simpl; [lia |].
  destruct k as [|k]; [| apply IH].
  destruct (m (String c s)) as [n|].
  - rewrite length_append. specialize (IH (Nat.pred n)). lia.
  - simpl. specialize (IH 0). lia.
Qed.

Lemma replaceAll_nonempty (m : matcher) (r : string) (c : ascii) (s : string) :
  r <> EmptyString -> replaceAll m r (String c s) <> EmptyString.
Proof.
  intros Hr. unfold replaceAll. simpl.
  destruct (m (String c s)); [| discriminate].
  destruct r; [congruence | discriminate].
Qed.

(** X18. After the change to small letters the two replacements never make
    the name longer: the sanitized name has at most as many code units as
    the name in small letters; and the sanitized name is empty for the
    empty name only. *)
Theorem santizeFilename_length :
  forall raw : string,
    String.length (santizeFilename raw) <= String.length (toLowerCase raw) /\
    (santizeFilename raw = EmptyString <-> raw = EmptyString).
Proof.
  intros raw. split.
  - unfold santizeFilename, replaceAll.
    pose proof (length_replaceAllFrom notFilenameChar "-" 0
                  (replaceAllFrom whiteSpaces "-" 0 (toLowerCase raw))) as H1.
    pose proof (length_replaceAllFrom whiteSpaces "-" 0 (toLowerCase raw)) as H2.
    simpl in H1, H2.
    specialize (H1 (le_n 1)). specialize (H2 (le_n 1)). lia.
  - split; [| now intros ->].
    destruct raw as [|c raw]; [reflexivity |]. intros H. exfalso.
    unfold santizeFilename in H. simpl toLowerCase in H.
    destruct (replaceAll whiteSpaces "-" (String (toLowerCaseChar c) (toLowerCase raw)))
      as [|x t] eqn:E.
    + now apply replaceAll_nonempty in E.
    + now apply replaceAll_nonempty in H.
Qed.

Lemma toLowerCase_append (a b : string) :
  toLowerCase (a ++ b) = toLowerCase a ++ toLowerCase b.
Proof. induction a as [|c a IH]; simpl; [reflexivity | now rewrite IH]. Qed.

Lemma isWhiteSpace_lower (c : ascii) :
  isWhiteSpace (toLowerCaseChar c) = isWhiteSpace c.
Proof. destruct c as [[] [] [] [] [] [] [] []]; reflexivity. Qed.

Lemma whiteSpace_lower (c : ascii) :
  isWhiteSpace c = true -> toLowerCaseChar c = c.
Proof. each_code_unit c. Qed.

Lemma toLowerCase_whiteSpace (w : string) :
  allChars isWhiteSpace w = true -> toLowerCase w = w.
Proof.
  induction w as [|c w IH]; [reflexivity |].
  simpl. intros H. apply andb_true_iff in H as [Hc Hw].
  now rewrite (whiteSpace_lower c Hc), IH.
Qed.

Lemma lastChar_toLowerCase (s : string) :
  lastChar (toLowerCase s) = option_map toLowerCaseChar (lastChar s).
Proof.
  induction s as [|c s IH]; [reflexivity |].
  simpl toLowerCase. destruct s as [|d s]; [reflexivity |].
  exact IH.
Qed.

Lemma endsWithWhiteSpace_lower (s : string) :
  endsWithWhiteSpace (toLowerCase s) = endsWithWhiteSpace s.
Proof.
  unfold endsWithWhiteSpace. rewrite lastChar_toLowerCase.
  destruct (lastChar s); simpl; [apply isWhiteSpace_lower | reflexivity].
Qed.

Lemma startsWithWhiteSpace_lower (s : string) :
  startsWithWhiteSpace (toLowerCase s) = startsWithWhiteSpace s.
Proof. destruct s; simpl; [reflexivity | apply isWhiteSpace_lower]. Qed.

Lemma whiteSpaceRun_le (s : string) : whiteSpaceRun s <= String.length s.
Proof.
  induction s as [|c s IH]; simpl; [lia |].
  destruct (isWhiteSpace c); simpl; lia.
Qed.

Lemma endsWithWhiteSpace_tail (c d : ascii) (s : string) :
  endsWithWhiteSpace (String c (String d s)) = endsWithWhiteSpace (String d s).
Proof. reflexivity. Qed.

(** A run of white space does not pass a border where the text before does
    not end with white space or the text after does not start with it. *)
Lemma whiteSpaceRun_append (x y : string) :
  x <> EmptyString ->
  endsWithWhiteSpace x = false \/ startsWithWhiteSpace y = false ->
  whiteSpaceRun (x ++ y) = whiteSpaceRun x.
Proof.
  induction x as [|c x IH]; [congruence |]. intros _ H.
  change (String c x ++ y) with (String c (x ++ y)). simpl.
  destruct (isWhiteSpace c) eqn:Hc; [| reflexivity]. f_equal.
  destruct x as [|d x].
  - simpl. destruct H as [H | H].
    + unfold endsWithWhiteSpace in H. simpl in H. congruence.
    + destruct y; simpl in *; [reflexivity | now rewrite H].
  - apply IH; [discriminate |].
    destruct H as [H | H]; [left | now right].
    now rewrite endsWithWhiteSpace_tail in H.
Qed.

Lemma endsWithWhiteSpace_sliceFrom (n : nat) (x : string) :
  endsWithWhiteSpace x = false -> endsWithWhiteSpace (sliceFrom n x) = false.
Proof.
  revert x; induction n as [|n IH]; intros [|c x] H; try exact H.
  simpl sliceFrom. apply IH.
  destruct x as [|d x]; [reflexivity |].
  now rewrite endsWithWhiteSpace_tail in H.
Qed.

Lemma whiteSpaces_split (r x y : string) :
  endsWithWhiteSpace x = false \/ startsWithWhiteSpace y = false ->
  replaceAll whiteSpaces r (x ++ y)
  = replaceAll whiteSpaces r x ++ replaceAll whiteSpaces r y.
Proof.
  remember (String.length x) as len eqn:Hlen.
  revert x Hlen; induction len as [len IH] using lt_wf_ind; intros x Hlen H.
  destruct x as [|c x]; [reflexivity |].
  assert (whiteSpaceRun (String c x ++ y) = whiteSpaceRun (String c x)) as Hrun
    by (apply whiteSpaceRun_append; [discriminate | exact H]).
  change (String c x ++ y) with (String c (x ++ y)) in *.
  destruct (whiteSpaces (String c x)) as [n|] eqn:E.
  - assert (whiteSpaces (String c (x ++ y)) = Some n) as E'
      by (unfold whiteSpaces in *; now rewrite Hrun).
    rewrite (replaceAll_match_any _ _ _ _ _ E), (replaceAll_match_any _ _ _ _ _ E').
    rewrite append_assoc. f_equal.
    assert (Nat.pred n <= String.length x) as Hn.
    { unfold whiteSpaces in E. pose proof (whiteSpaceRun_le (String c x)) as Hle.
      destruct (whiteSpaceRun (String c x)); [discriminate |].
      injection E as <-. simpl in *. lia. }
    rewrite sliceFrom_append_le by exact Hn.
    apply (IH (String.length (sliceFrom (Nat.pred n) x))); [| reflexivity |].
    + rewrite length_sliceFrom. subst len. simpl. lia.
    + destruct H as [H | H]; [left | now right].
      change (sliceFrom (Nat.pred n) x) with (sliceFrom (S (Nat.pred n)) (String c x)).
      now apply endsWithWhiteSpace_sliceFrom.
  - assert (whiteSpaces (String c (x ++ y)) = None) as E'
      by (unfold whiteSpaces in *; now rewrite Hrun).
    rewrite (replaceAll_no_match _ _ _ _ E), (replaceAll_no_match _ _ _ _ E').
    change (String c (replaceAll whiteSpaces r x) ++ replaceAll whiteSpaces r y)
      with (String c (replaceAll whiteSpaces r x ++ replaceAll whiteSpaces r y)).
    f_equal. apply (IH (String.length x)); [subst; simpl; lia | reflexivity |].
    destruct H as [H | H]; [left | now right].
    change x with (sliceFrom 1 (String c x)). now apply endsWithWhiteSpace_sliceFrom.
Qed.

Lemma whiteSpaceRun_all (w : string) :
  allChars isWhiteSpace w = true -> whiteSpaceRun w = String.length w.
Proof.
  induction w as [|c w IH]; [reflexivity |]. simpl.
  intros H. apply andb_true_iff in H as [-> H]. now rewrite IH.
Qed.

Lemma sliceFrom_all (s : string) : sliceFrom (String.length s) s = EmptyString.
Proof. induction s as [|c s IH]; [reflexivity | exact IH]. Qed.

Lemma append_empty_r (a : string) : a ++ EmptyString = a.
Proof. induction a as [|x a IH]; simpl; [reflexivity | now rewrite IH]. Qed.

Lemma whiteSpaces_run (r : string) (c : ascii) (w : string) :
  allChars isWhiteSpace (String c w) = true ->
  replaceAll whiteSpaces r (String c w) = r.
Proof.
  intros H.
  assert (whiteSpaces (String c w) = Some (S (String.length w))) as E.
  { unfold whiteSpaces. now rewrite (whiteSpaceRun_all _ H). }
  rewrite (replaceAll_match_any _ _ _ _ _ E). simpl Nat.pred.
  rewrite sliceFrom_all. unfold replaceAll. simpl. apply append_empty_r.
Qed.

Lemma notFilenameChar_append (x y : string) :
  replaceAll notFilenameChar "-" (x ++ y)
  = replaceAll notFilenameChar "-" x ++ replaceAll notFilenameChar "-" y.
Proof.
  induction x as [|c x IH]; [reflexivity |].
  change (String c x ++ y) with (String c (x ++ y)).
  destruct (isFilenameChar c) eqn:Hc.
  - rewrite !replaceAll_no_match by (simpl; now rewrite Hc).
    now rewrite IH.
  - rewrite (replaceAll_match_any _ _ c (x ++ y) 1) by (simpl; now rewrite Hc).
    rewrite (replaceAll_match_any _ _ c x 1) by (simpl; now rewrite Hc).
    simpl Nat.pred.
    replace (sliceFrom 0 (x ++ y)) with (x ++ y) by (now destruct (x ++ y)).
    replace (sliceFrom 0 x) with x by (now destruct x).
    now rewrite IH.
Qed.

(** X19. A run of white space between two parts becomes one hyphen, and
    the parts are sanitized apart: when the first part does not end with
    white space and the last does not start with it, the sanitized name is
    the sanitized first part, a hyphen, and the sanitized last part. *)
Theorem santizeFilename_joins :
  forall (a w b : string),
    endsWithWhiteSpace a = false ->
    startsWithWhiteSpace b = false ->
    w <> EmptyString ->
    allChars isWhiteSpace w = true ->
    santizeFilename (a ++ w ++ b) = santizeFilename a ++ "-" ++ santizeFilename b.
Proof.
  intros a w b Ha Hb Hw Hall. unfold santizeFilename.
  rewrite !toLowerCase_append, (toLowerCase_whiteSpace w Hall).
  rewrite whiteSpaces_split by (left; now rewrite endsWithWhiteSpace_lower).
  rewrite whiteSpaces_split by (right; now rewrite startsWithWhiteSpace_lower).
  destruct w as [|c w]; [congruence |].
  rewrite (whiteSpaces_run "-" c w Hall).
  now rewrite !notFilenameChar_append.
Qed.

Lemma santizeFilename_joins_witness :
  santizeFilename ("Arrow" ++ "   " ++ "Right!")
  = santizeFilename "Arrow" ++ "-" ++ santizeFilename "Right!".
Proof.
  apply (santizeFilename_joins "Arrow" "   " "Right!"); [reflexivity | reflexivity | | reflexivity].
  discriminate.
Defined.

(** ** The renaming of the attributes *)

Lemma apart_startsWith (r q t : string) :
  startsWith r q = false -> startsWith q r = false ->
  startsWith (r ++ t) q = false.
Proof.
  revert q; induction r as [|c r IH]; intros q H1 H2.
  - now destruct q.
  - destruct q as [|d q]; [discriminate H1 |].
    change (String c r ++ t) with (String c (r ++ t)).
    rewrite startsWith_cons in *. rewrite (Ascii.eqb_sym c d) in H2.
    destruct (Ascii.eqb d c); [| reflexivity]. simpl in *. now apply IH.
Qed.

Lemma includes_sliceFrom (n : nat) (s q : string) :
  includes s q = false -> includes (sliceFrom n s) q = false.
Proof.
  revert s; induction n as [|n IH]; intros [|c s] H; try exact H.
  simpl sliceFrom. apply IH. rewrite includes_cons in H.
  now apply orb_false_iff in H as [_ H].
Qed.

Section Renaming.

(** The literal [p] is replaced by [r]; [q] is a name that no suffix of [r]
    and no suffix of which can run into. *)
Variables (p r q : string).
Hypothesis q_apart : suffixesApart q r = true.
Hypothesis r_apart : suffixesApart r q = true.
Hypothesis q_not_empty : q <> EmptyString.

Lemma renamed_transfer (s q' : string) :
  suffixesApart q' r = true ->
  startsWith (replaceAll (literal p) r s) q' = true ->
  startsWith s q' = true.
Proof.
  revert q'; induction s as [|c s IH]; intros q' Hq'; [easy |].
  destruct q' as [|d q']; [reflexivity |].
  simpl in Hq'. apply andb_true_iff in Hq' as [Hq' Htail].
  apply andb_true_iff in Hq' as [H1 H2].
  apply negb_true_iff in H1. apply negb_true_iff in H2.
  destruct (literal p (String c s)) as [n|] eqn:E.
  - rewrite (replaceAll_match_any _ _ _ _ _ E).
    now rewrite (apart_startsWith r (String d q') _ H1 H2).
  - rewrite (replaceAll_no_match _ _ _ _ E), !startsWith_cons.
    intros H. apply andb_true_iff in H as [-> H]. simpl. now apply IH.
Qed.

Lemma renamed_after_replacement (r' t : string) :
  suffixesApart r' q = true ->
  includes t q = false -> includes (r' ++ t) q = false.
Proof.
  intros Hr' Ht. induction r' as [|c r' IH]; [exact Ht |].
  simpl in Hr'. apply andb_true_iff in Hr' as [Hr' Htail].
  apply andb_true_iff in Hr' as [H1 H2].
  apply negb_true_iff in H1. apply negb_true_iff in H2.
  change (String c r' ++ t) with (String c (r' ++ t)). rewrite includes_cons.
  change (String c (r' ++ t)) with (String c r' ++ t).
  now rewrite (apart_startsWith _ _ t H2 H1), IH.
Qed.

Lemma renamed_clean (s : string) :
  q = p \/ includes s q = false ->
  includes (replaceAll (literal p) r s) q = false.
Proof.
  remember (String.length s) as len eqn:Hlen.
  revert s Hlen; induction len as [len IH] using lt_wf_ind; intros s Hlen Hs.
  destruct s as [|c s].
  - unfold replaceAll. simpl. destruct q; [congruence | reflexivity].
  - destruct (literal p (String c s)) as [n|] eqn:E.
    + rewrite (replaceAll_match_any _ _ _ _ _ E).
      apply renamed_after_replacement; [exact r_apart |].
      apply (IH (String.length (sliceFrom (Nat.pred n) s))); [| reflexivity |].
      * rewrite length_sliceFrom. subst len. simpl. lia.
      * destruct Hs as [Hs | Hs]; [now left | right].
        change (sliceFrom (Nat.pred n) s) with (sliceFrom (S (Nat.pred n)) (String c s)).
        now apply includes_sliceFrom.
    + assert (includes (replaceAll (literal p) r s) q = false) as Htail.
      { apply (IH (String.length s)); [subst; simpl; lia | reflexivity |].
        destruct Hs as [Hs | Hs]; [now left | right].
        rewrite includes_cons in Hs. now apply orb_false_iff in Hs as [_ Hs]. }
      destruct (startsWith (replaceAll (literal p) r (String c s)) q) eqn:Hhere.
      * exfalso. apply renamed_transfer in Hhere; [| exact q_apart].
        destruct Hs as [-> | Hs].
        -- unfold literal in E. now rewrite Hhere in E.
        -- rewrite includes_cons, Hhere in Hs. discriminate Hs.
      * rewrite (replaceAll_no_match _ _ _ _ E) in Hhere |- *.
        now rewrite includes_cons, Hhere, Htail.
Qed.

End Renaming.

Lemma renamed_self (p r s : string) :
  suffixesApart p r = true -> suffixesApart r p = true -> p <> EmptyString ->
  includes (replaceAll (literal p) r s) p = false.
Proof. intros H1 H2 H3. apply renamed_clean; auto. Qed.

Lemma renamed_other (p r q s : string) :
  suffixesApart q r = true -> suffixesApart r q = true -> q <> EmptyString ->
  includes s q = false ->
  includes (replaceAll (literal p) r s) q = false.
Proof. intros H1 H2 H3 H4. apply renamed_clean; auto. Qed.

(** One name after the other: the step that renames it, then the steps
    that leave it away. *)
Ltac name_is_gone :=
  first [ apply renamed_self; [reflexivity | reflexivity | discriminate]
        | apply renamed_other; [reflexivity | reflexivity | discriminate | name_is_gone] ].

(** X20. After the renaming of the attributes none of the seven names of
    the table is left in the text, whatever the text was. *)
Theorem camelCaseAttributes_complete :
  forall (text kebab : string),
    In kebab kebabNames ->
    includes (camelCaseAttributes text) kebab = false.
Proof.
  intros text kebab Hin.
  cbv beta iota delta [camelCaseAttributes attributeMap fold_left fst snd].
  cbv beta iota delta [kebabNames attributeMap map fst In] in Hin.
  destruct Hin as [<- | [<- | [<- | [<- | [<- | [<- | [<- | []]]]]]]];
    name_is_gone.
Qed.

Lemma camelCaseAttributes_complete_witness :
  includes
    (camelCaseAttributes "<path stroke-stroke-widthwidth='2' fill-rule='evenodd'/>")
    "stroke-width" = false.
Proof.
  apply (camelCaseAttributes_complete _ "stroke-width"). left. reflexivity.
Defined.

Lemma literal_unmatched (p s : string) :
  includes s p = false -> matchesIn (literal p) s = false.
Proof.
  induction s as [|c s IH]; intros H.
  - simpl in *. unfold literal. rewrite orb_false_r in H. now rewrite H.
  - rewrite includes_cons in H. apply orb_false_iff in H as [Hhere Hlater].
    simpl. unfold literal at 1. rewrite Hhere. now apply IH.
Qed.

Lemma renaming_unchanged (table : list (string * string)) (text : string) :
  (forall entry, In entry table -> includes text (fst entry) = false) ->
  fold_left (fun processed entry => replaceAll (literal (fst entry)) (snd entry) processed)
    table text
  = text.
Proof.
  induction table as [|entry table IH]; intros H; [reflexivity |].
  simpl. rewrite (replaceAll_unmatched (literal (fst entry))).
  - apply IH. intros e He. apply H. now right.
  - apply literal_unmatched, H. now left.
Qed.

Lemma camelCaseAttributes_plain (text : string) :
  (forall kebab : string, In kebab kebabNames -> includes text kebab = false) ->
  camelCaseAttributes text = text.
Proof.
  intros H. unfold camelCaseAttributes. apply renaming_unchanged.
  intros entry Hentry. apply H. unfold kebabNames. now apply in_map.
Qed.

(** X21. A text that holds none of the seven names of the table is left as
    it is by the renaming of the attributes. *)
Theorem camelCaseAttributes_unchanged :
  forall text : string,
    (forall kebab : string, In kebab kebabNames -> includes text kebab = false) ->
    camelCaseAttributes text = text.
Proof.
  intros text H. now apply camelCaseAttributes_plain.
Qed.

Lemma camelCaseAttributes_unchanged_witness :
  camelCaseAttributes "<svg viewBox='0 0 24 24'><path d='M0 0'/></svg>"
  = "<svg viewBox='0 0 24 24'><path d='M0 0'/></svg>".
Proof.
  apply camelCaseAttributes_unchanged.
  intros kebab Hin.
  cbv beta iota delta [kebabNames attributeMap map fst In] in Hin.
  destruct Hin as [<- | [<- | [<- | [<- | [<- | [<- | [<- | []]]]]]]]; reflexivity.
Defined.

(** ** The XML declaration *)

Lemma delimited_unmatched (opening : string) (stop : ascii) (closing s : string) :
  includes s opening = false ->
  matchesIn (delimited opening stop closing) s = false.
Proof.
  induction s as [|c s IH]; intros H.
  - simpl in *. unfold delimited. rewrite orb_false_r in H. now rewrite H.
  - rewrite includes_cons in H. apply orb_false_iff in H as [Hhere Hlater].
    simpl. unfold delimited at 1. rewrite Hhere. now apply IH.
Qed.

Lemma removeXmlDeclaration_plain (text : string) :
  includes text "<?xml" = false -> removeXmlDeclaration text = text.
Proof. intros H. now apply replaceAll_unmatched, delimited_unmatched. Qed.

(** X22. A declaration at the head of the text is removed: a text that
    starts with [<?xml], goes on without question mark up to [?>], and has
    no [<?xml] after that, is left with what follows the declaration; and a
    text without [<?xml] is left as it is. *)
Theorem removeXmlDeclaration_prologue :
  (forall (declaration rest : string),
      hasChar "?" declaration = false ->
      includes rest "<?xml" = false ->
      removeXmlDeclaration ("<?xml" ++ declaration ++ "?>" ++ rest) = rest)
  /\
  (forall text : string,
      includes text "<?xml" = false -> removeXmlDeclaration text = text).
Proof.
  split.
  - intros declaration rest Hd Hrest. unfold removeXmlDeclaration, xmlDeclaration.
    assert (delimited "<?xml" "?" "?>" ("<?xml" ++ declaration ++ "?>" ++ rest)
            = Some (5 + String.length declaration + 2)) as E.
    { unfold delimited. cbv zeta.
      rewrite (startsWith_append "<?xml"), (sliceFrom_append "<?xml").
      change ("?>" ++ rest) with (String "?" (">" ++ rest)).
      rewrite (runWithout_full "?" declaration _ Hd), sliceFrom_append.
      reflexivity. }
    change ("<?xml" ++ declaration ++ "?>" ++ rest)
      with (String "<" ("?xml" ++ declaration ++ "?>" ++ rest)) in *.
    rewrite (replaceAll_match_any _ _ _ _ _ E).
    change (EmptyString ++ replaceAll (delimited "<?xml" "?" "?>") EmptyString
              (sliceFrom (Nat.pred (5 + String.length declaration + 2))
                 ("?xml" ++ declaration ++ "?>" ++ rest)))
      with (replaceAll (delimited "<?xml" "?" "?>") EmptyString
              (sliceFrom (Nat.pred (5 + String.length declaration + 2))
                 ("?xml" ++ declaration ++ "?>" ++ rest))).
    replace (Nat.pred (5 + String.length declaration + 2))
      with (String.length ("?xml" ++ declaration ++ "?>"))
      by (rewrite !length_append; simpl; lia).
    replace ("?xml" ++ declaration ++ "?>" ++ rest)
      with (("?xml" ++ declaration ++ "?>") ++ rest)
      by (now rewrite !append_assoc).
    rewrite sliceFrom_append.
    now apply replaceAll_unmatched, delimited_unmatched.
  - intros text H. now apply replaceAll_unmatched, delimited_unmatched.
Qed.

Lemma removeXmlDeclaration_prologue_witness :
  removeXmlDeclaration ("<?xml" ++ " version='1.0' encoding='UTF-8'" ++ "?>" ++ "<svg/>")
  = "<svg/>".
Proof.
  apply (proj1 removeXmlDeclaration_prologue " version='1.0' encoding='UTF-8'" "<svg/>");
    reflexivity.
Defined.

(** ** The name of the component *)

Lemma capitalize_chars (P R : ascii -> bool) (part : string) :
  (forall x, P x = true -> allChars R (toUpperCaseChar x) = true) ->
  (forall x, P x = true -> R x = true) ->
  allChars P part = true -> allChars R (capitalize part) = true.
Proof.
  intros Hup Hkeep. destruct part as [|c part]; [reflexivity |].
  simpl. intros H. apply andb_true_iff in H as [Hc Hpart].
  rewrite allChars_append, (Hup c Hc). simpl.
  now apply (allChars_impl P R).
Qed.

(** The parts of a split: what is between the hyphens. *)
Lemma splitOnHyphen_chars (P : ascii -> bool) (current s : string) :
  allChars P current = true ->
  allChars (fun c => Ascii.eqb c "-" || P c) s = true ->
  Forall (fun part => allChars P part = true) (splitOnHyphen current s).
Proof.
  revert current; induction s as [|c s IH]; intros current Hcurrent H; simpl.
  - now constructor.
  - simpl in H. apply andb_true_iff in H as [Hc Hs].
    destruct (Ascii.eqb c "-") eqn:E.
    + constructor; [exact Hcurrent | now apply IH].
    + apply IH; [| exact Hs]. rewrite allChars_append, Hcurrent. simpl in *.
      now rewrite Hc.
Qed.

Lemma concat_chars (R : ascii -> bool) (parts : list string) :
  Forall (fun part => allChars R part = true) parts ->
  allChars R (String.concat EmptyString parts) = true.
Proof.
  induction 1 as [|part parts Hpart _ IH]; [reflexivity |].
  simpl. destruct parts as [|next parts]; [exact Hpart |].
  now rewrite allChars_append, Hpart.
Qed.

Lemma componentNameOf_chars (P R : ascii -> bool) (filename : string) :
  (forall x, P x = true -> allChars R (toUpperCaseChar x) = true) ->
  (forall x, P x = true -> R x = true) ->
  allChars (fun c => Ascii.eqb c "-" || P c) filename = true ->
  allChars R (componentNameOf filename) = true.
Proof.
  intros Hup Hkeep H. unfold componentNameOf, split_hyphen.
  apply concat_chars.
  pose proof (splitOnHyphen_chars P EmptyString filename eq_refl H) as Hparts.
  induction Hparts as [|part parts Hpart _ IH]; constructor; [| exact IH].
  now apply (capitalize_chars P R).
Qed.

Lemma hasChar_none (c : ascii) (s : string) :
  allChars (fun x => negb (Ascii.eqb x c)) s = true -> hasChar c s = false.
Proof.
  induction s as [|x s IH]; [reflexivity |]. simpl.
  intros H. apply andb_true_iff in H as [Hx Hs].
  apply negb_true_iff in Hx. now rewrite Hx, IH.
Qed.

Lemma capital_not_hyphen (c : ascii) :
  negb (Ascii.eqb c "-") = true ->
  allChars (fun x => negb (Ascii.eqb x "-")) (toUpperCaseChar c) = true.
Proof. each_code_unit c. Qed.

Lemma capital_letterOrDigit (c : ascii) :
  isLowerOrDigit c = true -> allChars isLetterOrDigit (toUpperCaseChar c) = true.
Proof. each_code_unit c. Qed.

Lemma lowerOrDigit_letterOrDigit (c : ascii) :
  isLowerOrDigit c = true -> isLetterOrDigit c = true.
Proof. each_code_unit c. Qed.

Lemma filenameChar_cases (c : ascii) :
  isFilenameChar c = true -> Ascii.eqb c "-" || isLowerOrDigit c = true.
Proof. each_code_unit c. Qed.

(** X23. The name that [transform] derives from a file name: the parts
    between the hyphens are joined, each with its first letter as a
    capital.  For a file name whose capitals are below 256 the name holds
    no hyphen; and for a file name of small letters, digits and hyphens, as
    [santizeFilename] gives one, the name is made of letters and digits
    only. *)
Theorem componentNameOf_without_hyphen :
  forall filename : string,
    (allChars capitalWithin filename = true ->
     hasChar "-" (componentNameOf filename) = false)
    /\
    (allChars isFilenameChar filename = true ->
     allChars isLetterOrDigit (componentNameOf filename) = true).
Proof.
  intros filename. split.
  - intros _. apply hasChar_none.
    apply (componentNameOf_chars (fun x => negb (Ascii.eqb x "-"))).
    + apply capital_not_hyphen.
    + auto.
    + clear. induction filename as [|c s IH]; [reflexivity |].
      simpl. rewrite IH. now destruct (Ascii.eqb c "-").
  - intros H. apply (componentNameOf_chars isLowerOrDigit).
    + apply capital_letterOrDigit.
    + apply lowerOrDigit_letterOrDigit.
    + revert H. apply allChars_impl. apply filenameChar_cases.
Qed.

Lemma componentNameOf_without_hyphen_witness :
  hasChar "-" (componentNameOf "arrow-right-2") = false /\
  allChars isLetterOrDigit (componentNameOf "arrow-right-2") = true.
Proof.
  split.
  - apply (proj1 (componentNameOf_without_hyphen "arrow-right-2")). reflexivity.
  - apply (proj2 (componentNameOf_without_hyphen "arrow-right-2")). reflexivity.
Defined.

(** ** The transformer on a plain icon *)

Lemma includes_false_append (x y q : string) :
  includes (x ++ y) q = false -> includes x q = false /\ includes y q = false.
Proof.
  intros H. split.
  - destruct (includes x q) eqn:E; [| reflexivity].
    now rewrite (includes_append_l x y q E) in H.
  - destruct (includes y q) eqn:E; [| reflexivity].
    now rewrite (includes_append_r x y q E) in H.
Qed.

(** What is put after [<svg] for the two props does not bring in a text
    that holds neither a space nor a closing brace. *)
Lemma includes_injected (x y : string) (c : ascii) (q : string) :
  hasChar " " (String c q) = false -> hasChar "}" (String c q) = false ->
  includes x (String c q) = false -> includes y (String c q) = false ->
  forall inside : string,
    includes inside (String c q) = false ->
    includes (x ++ String " " (inside ++ String "}" y)) (String c q) = false.
Proof.
  intros Hspace Hbrace Hx Hy inside Hinside.
  rewrite (includes_append_char " " x _ c q Hspace), Hx.
  rewrite (includes_append_char "}" inside y c q Hbrace), Hinside, Hy.
  reflexivity.
Qed.

(** X24. On a plain icon the transformer does exactly this: when the text
    has a root tag with nothing but text without [<] before it, attributes
    without [>], and holds no XML declaration, none of the seven names to
    rename, no [width=], no [height=] and no class attribute, the markup is
    the text with [{...rest}], the height and the width put right after
    [<svg], in that order, and the title element right after the root
    tag. *)
Theorem processedMarkup_plain_icon :
  forall (a attrs b : string),
    hasChar "<" a = false ->
    hasChar ">" attrs = false ->
    includes (a ++ "<svg" ++ attrs ++ ">" ++ b) "<?xml" = false ->
    (forall kebab : string,
        In kebab kebabNames -> includes (a ++ "<svg" ++ attrs ++ ">" ++ b) kebab = false) ->
    includes (a ++ "<svg" ++ attrs ++ ">" ++ b) "width=" = false ->
    includes (a ++ "<svg" ++ attrs ++ ">" ++ b) "height=" = false ->
    includes (a ++ "<svg" ++ attrs ++ ">" ++ b) ("class=" ++ DQ) = false ->
    processedMarkup (a ++ "<svg" ++ attrs ++ ">" ++ b)
    = a ++ "<svg {...rest} height={height} width={width}" ++ attrs ++ ">"
        ++ titleElement ++ b.
Proof.
  intros a attrs b Ha Hattrs Hxml Hkebab Hwidth Hheight Hclass.
  assert (forall t, indexOf (a ++ "<svg" ++ t) "<svg" = Some (String.length a)) as Hfirst
    by (intros t; apply (indexOf_after_plain "<" a "svg" t Ha)).
  unfold processedMarkup.
  rewrite (removeXmlDeclaration_plain _ Hxml).
  rewrite (camelCaseAttributes_plain _ Hkebab).
  set (rest := attrs ++ ">" ++ b) in *.
  (* the width, then the height, after the first tag *)
  assert (widthProp (a ++ "<svg" ++ rest) = a ++ "<svg" ++ " width={width}" ++ rest) as ->.
  { unfold widthProp, svgTag. rewrite Hwidth.
    rewrite (replaceFirst_literal_at _ _ _ _ (Hfirst rest)), sliceTo_append.
    rewrite <- sliceFrom_sliceFrom, sliceFrom_append. reflexivity. }
  assert (heightProp (a ++ "<svg" ++ " width={width}" ++ rest)
          = a ++ "<svg" ++ " height={height} width={width}" ++ rest) as ->.
  { unfold heightProp, svgTag.
    assert (includes (a ++ "<svg" ++ " width={width}" ++ rest) "height=" = false) as ->.
    { rewrite <- append_assoc in Hheight |- *.
      apply includes_false_append in Hheight as [Hhead Hrest].
      change (" width={width}" ++ rest)
        with (String " " ("width={width" ++ String "}" rest)).
      apply (includes_injected (a ++ "<svg") rest "h" "eight="); reflexivity || assumption. }
    rewrite (replaceFirst_literal_at _ _ _ _ (Hfirst _)), sliceTo_append.
    rewrite <- sliceFrom_sliceFrom, sliceFrom_append. reflexivity. }
  (* the title, the classes, the spread *)
  subst rest.
  rewrite <- (append_assoc " height={height} width={width}" attrs).
  rewrite insertTitle_at;
    [| apply Hfirst | now rewrite hasChar_append, Hattrs].
  apply includes_false_append in Hclass as [Hclass_a Hclass].
  apply includes_false_append in Hclass as [_ Hclass].
  apply includes_false_append in Hclass as [Hclass_attrs Hclass_b].
  apply includes_false_append in Hclass_b as [_ Hclass_b].
  assert (includes (" height={height} width={width}" ++ attrs) ("class=" ++ DQ) = false)
    as Hclass_attrs'.
  { change (" height={height} width={width}" ++ attrs)
      with (" height={height} width={width" ++ String "}" attrs).
    change ("class=" ++ DQ) with (String "c" ("lass=" ++ DQ)) in *.
    rewrite includes_append_char by reflexivity.
    now rewrite Hclass_attrs. }
  rewrite removeClass_root;
    [| exact Hclass_a | now apply closesWithin_without_opening].
  unfold removeClass at 1 2, classAttribute.
  change (delimited ("class=" ++ DQ) dquote DQ) with (quoted "class=" dquote).
  rewrite !replaceAll_unmatched by (now apply unmatched_without_opening).
  rewrite spreadRest_at by apply Hfirst.
  now rewrite !append_assoc.
Qed.

Lemma processedMarkup_plain_icon_witness :
  processedMarkup plainIconText
  = "<svg {...rest} height={height} width={width} viewBox=" ++ DQ ++ "0 0 24 24" ++ DQ
      ++ ">" ++ titleElement ++ "<path d=" ++ DQ ++ "M0 0" ++ DQ ++ "/></svg>".
Proof.
  apply (processedMarkup_plain_icon EmptyString
           (" viewBox=" ++ DQ ++ "0 0 24 24" ++ DQ)
           ("<path d=" ++ DQ ++ "M0 0" ++ DQ ++ "/></svg>")); try reflexivity.
  intros kebab Hin.
  cbv beta iota delta [kebabNames attributeMap map fst In] in Hin.
  destruct Hin as [<- | [<- | [<- | [<- | [<- | [<- | [<- | []]]]]]]]; reflexivity.
Defined.
